(** * A shallow embedding of the graph view-state store of spanner-graph-notebook

    The development follows [frontend/src/spanner-store.js] (class [GraphStore]),
    the schema index [Schema] and the legacy [Edge] model.  JavaScript values are
    modelled as follows:
    - a graph object is a record carrying its JS object identity [go_ref]; [===]
      between objects compares identities;
    - JS objects used as maps ([config.nodes], [config.nodeColors], ...) are
      stdpp [gmap]s keyed by strings, and a lookup [obj[key]] also finds the
      members such an object inherits from [Object.prototype] ([js_get]);
      the enumeration order of [Object.keys] is
      the gmap's order (no statement about those maps depends on that order);
      the [names] object of [Schema.getNamesOfTables], whose key order is the
      result, is kept as its list of keys in creation order, with the order of
      [Object.keys] (array indices first, ascending) written out;
    - an event listener is an opaque callback id; calling a listener appends the
      call (callback id and argument) to the store's call trace [calls];
      listeners are taken not to re-enter the store;
    - [null] / [undefined] are [None]; a thrown exception is [Throw]. *)

From Stdlib Require Import ZArith.
From stdpp Require Import base gmap strings list sorting.

(** ** Graph objects *)

Inductive ObjKind := KNode | KEdge.

(** A [Node] or [Edge] instance (models/node.js, models/edge.js). *)
Record GraphObject := mkGraphObject {
  go_ref : nat;                      (* JS object identity *)
  go_kind : ObjKind;                 (* [instanceof Node] / [instanceof Edge] *)
  go_uid : string;
  go_labels : list string;
  go_sourceUid : option string;      (* edges only *)
  go_destinationUid : option string; (* edges only *)
  go_neighborhood : option Z         (* [undefined] when not a number *)
}.

(** [a === b] on objects. *)
Definition obj_same (a b : GraphObject) : bool := Nat.eqb (go_ref a) (go_ref b).

(** [x === node.uid] for an optional endpoint uid ([undefined === s] is false). *)
Definition uid_is (x : option string) (uid : string) : bool :=
  match x with Some s => String.eqb s uid | None => false end.

(** [getDisplayName()]: the first label. *)
Definition getDisplayName (o : GraphObject) : option string := head (go_labels o).

(** ** Raw records received by [appendGraphData] *)

Record NodeData := mkNodeData {
  nd_identifier : string;
  nd_labels : list string
}.

Record EdgeData := mkEdgeData {
  ed_identifier : string;
  ed_source_node_identifier : string;
  ed_destination_node_identifier : string;
  ed_labels : list string
}.

(** ** Configuration values *)

(** [GraphConfig.ViewModes]: the graph, table and schema views; any other value
    can be passed to [setViewMode]. *)
Inductive ViewMode := DEFAULT | TABLE | SCHEMA | OtherViewMode (tag : string).

(** [GraphConfig.ColorScheme]; any other value can be stored by
    [setColorScheme] (the tests also construct configs with [colorScheme: {}]). *)
Inductive ColorScheme := NEIGHBORHOOD | LABEL | OtherColorScheme (tag : string).

#[global] Instance ViewMode_eq_dec : EqDecision ViewMode.
Proof. solve_decision. Defined.

#[global] Instance ColorScheme_eq_dec : EqDecision ColorScheme.
Proof. solve_decision. Defined.

(** The fields of [GraphConfig] read or written by the store. *)
Record GraphConfig := mkGraphConfig {
  nodes : gmap string GraphObject;
  edges : gmap string GraphObject;
  schemaNodes : gmap string GraphObject;
  schemaEdges : gmap string GraphObject;
  nodeColors : gmap string string;
  colorPalette : list string;
  colorScheme : ColorScheme;
  viewMode : ViewMode;
  focusedGraphObject : option GraphObject;
  selectedGraphObject : option GraphObject;
  nodeCount : nat;
  edgeCount : nat
}.

Definition set_focusedGraphObject (o : option GraphObject) (c : GraphConfig) : GraphConfig :=
  mkGraphConfig (nodes c) (edges c) (schemaNodes c) (schemaEdges c) (nodeColors c)
    (colorPalette c) (colorScheme c) (viewMode c) o (selectedGraphObject c)
    (nodeCount c) (edgeCount c).

Definition set_selectedGraphObject (o : option GraphObject) (c : GraphConfig) : GraphConfig :=
  mkGraphConfig (nodes c) (edges c) (schemaNodes c) (schemaEdges c) (nodeColors c)
    (colorPalette c) (colorScheme c) (viewMode c) (focusedGraphObject c) o
    (nodeCount c) (edgeCount c).

Definition set_viewMode (m : ViewMode) (c : GraphConfig) : GraphConfig :=
  mkGraphConfig (nodes c) (edges c) (schemaNodes c) (schemaEdges c) (nodeColors c)
    (colorPalette c) (colorScheme c) m (focusedGraphObject c) (selectedGraphObject c)
    (nodeCount c) (edgeCount c).

(** ** Events *)

(** The keys of [GraphStore.EventTypes]. *)
Inductive EventKind :=
  | CONFIG_CHANGE | FOCUS_OBJECT | SELECT_OBJECT | COLOR_SCHEME | VIEW_MODE_CHANGE
  | LAYOUT_MODE_CHANGE | SHOW_LABELS | NODE_EXPANSION_REQUEST | GRAPH_DATA_UPDATE.

(** A value passed as [eventType] to [addEventListener]: one of the nine
    registered symbols, another symbol, or a string property key. *)
Inductive EventType :=
  | Registered (k : EventKind)
  | OtherSymbol (n : nat)
  | StringKey (s : string).

(** The argument a listener is called with (the trailing [config] argument,
    a reference to the store's own config, is left out). *)
Inductive Payload :=
  | PFocus (o : option GraphObject)
  | PSelect (o : option GraphObject)
  | PViewMode (m : ViewMode)
  | PGraphData (curNodes curEdges : list GraphObject)
               (newNodes : list NodeData) (newEdges : list EdgeData).

Inductive JsError :=
  | Error (msg : string)
  | TypeError (msg : string)
  | ReferenceError (msg : string).

Inductive Result (A : Type) := Ok (a : A) | Throw (e : JsError).
Arguments Ok {A} a.
Arguments Throw {A} e.

(** ** The store *)

Record GraphStore := mkGraphStore {
  config : GraphConfig;
  reservedColorsByNeighborhood : list (option Z);
  eventListeners : EventKind -> list nat;
  calls : list (nat * Payload);   (* listener calls made so far, in order *)
  diagnostics : list string       (* console.error / console.log output *)
}.

Definition set_config (c : GraphConfig) (s : GraphStore) : GraphStore :=
  mkGraphStore c (reservedColorsByNeighborhood s) (eventListeners s) (calls s) (diagnostics s).

(** [this.eventListeners[kind].forEach(callback => callback(payload, ...))] *)
Definition notify (k : EventKind) (p : Payload) (s : GraphStore) : GraphStore :=
  mkGraphStore (config s) (reservedColorsByNeighborhood s) (eventListeners s)
    (calls s ++ map (fun cb => (cb, p)) (eventListeners s k)) (diagnostics s).

Definition log (msg : string) (s : GraphStore) : GraphStore :=
  mkGraphStore (config s) (reservedColorsByNeighborhood s) (eventListeners s)
    (calls s) (diagnostics s ++ [msg]).

(** [setFocusedObject(graphObject)] *)
Definition setFocusedObject (o : option GraphObject) (s : GraphStore) : GraphStore :=
  notify FOCUS_OBJECT (PFocus o) (set_config (set_focusedGraphObject o (config s)) s).

(** [setSelectedObject(graphObject)] *)
Definition setSelectedObject (o : option GraphObject) (s : GraphStore) : GraphStore :=
  notify SELECT_OBJECT (PSelect o) (set_config (set_selectedGraphObject o (config s)) s).

(** [setViewMode(viewMode)] *)
Definition setViewMode (m : ViewMode) (s : GraphStore) : GraphStore :=
  if decide (m = viewMode (config s)) then s
  else
    let s1 := setSelectedObject None (setFocusedObject None s) in
    let s2 := set_config (set_viewMode m (config s1)) s1 in
    notify VIEW_MODE_CHANGE (PViewMode m) s2.

(** [showLabels], [setLayoutMode] and [setColorScheme] are not needed below. *)

(** ** Derived collections *)

(** [Object.keys(map).map(uid => map[uid])] *)
Definition obj_values (m : gmap string GraphObject) : list GraphObject :=
  (map_to_list m).*2.

(** [getNodes()]: the live map in [DEFAULT] mode, the schema map in [SCHEMA]
    mode, and the initial [{}] in every other mode. *)
Definition getNodes (c : GraphConfig) : list GraphObject :=
  let nodeMap :=
    match viewMode c with
    | DEFAULT => nodes c
    | SCHEMA => schemaNodes c
    | _ => ∅
    end in
  obj_values nodeMap.

(** [getEdges()] *)
Definition getEdges (c : GraphConfig) : list GraphObject :=
  let edgeMap :=
    match viewMode c with
    | DEFAULT => edges c
    | SCHEMA => schemaEdges c
    | _ => ∅
    end in
  obj_values edgeMap.

(** ** Property lookup on an object used as a map *)

(** Keys an object literal inherits from [Object.prototype]. *)
Definition object_prototype_keys : list string :=
  ["constructor"; "__proto__"; "hasOwnProperty"; "isPrototypeOf";
   "propertyIsEnumerable"; "toLocaleString"; "toString"; "valueOf";
   "__defineGetter__"; "__defineSetter__"; "__lookupGetter__"; "__lookupSetter__"].

Definition inherited_key (k : string) : bool := existsb (String.eqb k) object_prototype_keys.

(** The value of [obj[key]] on an object literal used as a map: its own entry,
    else the member inherited from [Object.prototype] (a function, or the
    prototype object itself under ["__proto__"]; truthy either way), else
    [undefined]. *)
Inductive Member (A : Type) := Own (a : A) | Inherited (key : string) | Absent.
Arguments Own {A} _.
Arguments Inherited {A} _.
Arguments Absent {A}.

Definition js_get {A : Type} (m : gmap string A) (key : string) : Member A :=
  match m !! key with
  | Some a => Own a
  | None => if inherited_key key then Inherited key else Absent
  end.

(** ** [appendGraphData] *)

(** [if (this.config.nodes[nodeData.identifier]) continue;]: a data item is
    kept when the lookup is falsy, that is [undefined]: map entries are
    objects and inherited members are functions or [Object.prototype], all
    truthy. *)
Definition absent_from (m : gmap string GraphObject) (id : string) : bool :=
  match js_get m id with Absent => true | _ => false end.

(** [Array.isArray(xs) ? xs : []] followed by the filtering loop; [None] is a
    non-array argument. *)
Definition fresh_nodes (c : GraphConfig) (xs : option (list NodeData)) : list NodeData :=
  match xs with
  | Some l => List.filter (fun d => absent_from (nodes c) (nd_identifier d)) l
  | None => []
  end.

Definition fresh_edges (c : GraphConfig) (xs : option (list EdgeData)) : list EdgeData :=
  match xs with
  | Some l => List.filter (fun d => absent_from (edges c) (ed_identifier d)) l
  | None => []
  end.

Section StoreAppend.

(** [GraphConfig.prototype.appendGraphData(newNodes, newEdges)]: the
    configuration's own merge, a parameter here. *)
Variable config_appendGraphData : list NodeData -> list EdgeData -> GraphConfig -> GraphConfig.

(** [GraphStore.appendGraphData(nodesData, edgesData)]: the new state and the
    return value ([undefined] is [None]). *)
Definition appendGraphData (nodesData : option (list NodeData))
    (edgesData : option (list EdgeData)) (s : GraphStore)
    : GraphStore * option (list NodeData * list EdgeData) :=
  let newNodes := fresh_nodes (config s) nodesData in
  let newEdges := fresh_edges (config s) edgesData in
  match newNodes, newEdges with
  | [], [] => (s, None)
  | _, _ =>
      let s1 := set_config (config_appendGraphData newNodes newEdges (config s)) s in
      let s2 := notify GRAPH_DATA_UPDATE
                  (PGraphData (getNodes (config s1)) (getEdges (config s1)) newNodes newEdges) s1 in
      (s2, Some (newNodes, newEdges))
  end.

End StoreAppend.

Section ConfigAppend.

(** [new Node(nodeData)] / [new Edge(edgeData)]: [None] when the instance is
    marked not instantiated. *)
Variable parseNode : NodeData -> option GraphObject.
Variable parseEdge : EdgeData -> option GraphObject.

(** Parse each item in order and store the instantiated ones under their
    identifier (last write wins). *)
Definition merge_parsed {D : Type} (key : D -> string) (parse : D -> option GraphObject)
    (ds : list D) (m : gmap string GraphObject) : gmap string GraphObject :=
  fold_left (fun acc d => match parse d with Some o => <[key d := o]> acc | None => acc end) ds m.

(** Modelled from the spec: [GraphConfig.appendGraphData] (spanner-config.js)
    is not among the sources.  Following §4.3 step 5 of the spec, it parses the
    new node and edge records (dropping those that fail validation), merges
    them into the live maps indexed by identifier, never removes an entry, and
    recomputes [nodeCount] / [edgeCount] as the sizes of the live maps (as the
    unit test "nodeCount is updated correctly when appending graph data"
    observes). *)
Definition spec_config_appendGraphData (nds : list NodeData) (eds : list EdgeData)
    (c : GraphConfig) : GraphConfig :=
  let ns := merge_parsed nd_identifier parseNode nds (nodes c) in
  let es := merge_parsed ed_identifier parseEdge eds (edges c) in
  mkGraphConfig ns es (schemaNodes c) (schemaEdges c) (nodeColors c)
    (colorPalette c) (colorScheme c) (viewMode c) (focusedGraphObject c)
    (selectedGraphObject c) (size ns) (size es).

End ConfigAppend.

(** ** Edge styling *)

(** Which entry of [config.edgeDesign] is returned. *)
Inductive EdgeStyle := StyleDefault | StyleFocused | StyleSelected.

(** [edgeIsConnectedToNode(edge, node)].  The guards [!edge instanceof Edge]
    and [!node instanceof Node] parse as [(!edge) instanceof Edge], which is
    always false, so only the null checks take effect: the second argument is
    compared by uid whatever its kind. *)
Definition edgeIsConnectedToNode (edge node : option GraphObject) : bool :=
  match edge, node with
  | Some e, Some n =>
      uid_is (go_sourceUid e) (go_uid n) || uid_is (go_destinationUid e) (go_uid n)
  | _, _ => false
  end.

Definition edgeIsConnectedToFocusedNode (edge : GraphObject) (c : GraphConfig) : bool :=
  edgeIsConnectedToNode (Some edge) (focusedGraphObject c).

Definition edgeIsConnectedToSelectedNode (edge : GraphObject) (c : GraphConfig) : bool :=
  edgeIsConnectedToNode (Some edge) (selectedGraphObject c).

(** Truthiness of an optional object ([null] is falsy, objects are truthy). *)
Definition truthy (x : option GraphObject) : bool :=
  match x with Some _ => true | None => false end.

(** [this.config.x && edge === this.config.x] *)
Definition is_current (edge : GraphObject) (x : option GraphObject) : bool :=
  match x with Some o => obj_same edge o | None => false end.

(** [getEdgeDesign(edge)] *)
Definition getEdgeDesign (edge : GraphObject) (c : GraphConfig) : EdgeStyle :=
  let hasSelectedObject := truthy (selectedGraphObject c) in
  let edgeIsSelected := is_current edge (selectedGraphObject c) in
  if hasSelectedObject && edgeIsSelected then StyleSelected
  else if hasSelectedObject then
    (if edgeIsConnectedToSelectedNode edge c then StyleFocused else StyleDefault)
  else
    let edgeIsFocused := is_current edge (focusedGraphObject c) in
    if negb hasSelectedObject && edgeIsFocused then StyleFocused
    else
      let isNeighbor := edgeIsConnectedToFocusedNode edge c || edgeIsConnectedToSelectedNode edge c in
      if isNeighbor then StyleFocused else StyleDefault.

(** The 4-way priority as the spec words it: an edge "touches" a graph object
    when that object is a node and one of the edge's endpoints is that node. *)
Definition touches_node (edge : GraphObject) (x : option GraphObject) : bool :=
  match x with
  | Some n =>
      match go_kind n with
      | KNode => uid_is (go_sourceUid edge) (go_uid n) || uid_is (go_destinationUid edge) (go_uid n)
      | KEdge => false
      end
  | None => false
  end.

Definition edgeDesign_as_specified (edge : GraphObject) (c : GraphConfig) : EdgeStyle :=
  match selectedGraphObject c with
  | Some sel =>
      if obj_same edge sel then StyleSelected
      else if touches_node edge (Some sel) then StyleFocused
      else StyleDefault
  | None =>
      if is_current edge (focusedGraphObject c) || touches_node edge (focusedGraphObject c)
      then StyleFocused else StyleDefault
  end.

(** ** Node colors *)

(** [array.indexOf(x)] on the reserved neighborhoods ([-1] when absent). *)
Fixpoint indexOf (x : option Z) (l : list (option Z)) : Z :=
  match l with
  | [] => (-1)%Z
  | y :: l' =>
      if decide (y = x) then 0%Z
      else let i := indexOf x l' in if Z.eqb i (-1)%Z then (-1)%Z else (i + 1)%Z
  end.

(** [array[i]] ([undefined] out of range). *)
Definition js_index (l : list string) (i : Z) : option string :=
  if Z.ltb i 0%Z then None else l !! Z.to_nat i.

(** [getColorForNodeByNeighborhood(node)].  A null [node] passes the guard's
    log and then fails on [node.neighborhood]. *)
Definition getColorForNodeByNeighborhood (node : option GraphObject) (s : GraphStore)
    : Result (GraphStore * option string) :=
  match node with
  | None => Throw (TypeError "Cannot read properties of null (reading 'neighborhood')")
  | Some n =>
      let nb := go_neighborhood n in
      let s0 := match nb with Some _ => s | None => log "Node must have a neighborhood" s end in
      let reserved := reservedColorsByNeighborhood s0 in
      let i := indexOf nb reserved in
      let '(reserved', index) :=
        if Z.eqb i (-1)%Z then (reserved ++ [nb], (Z.of_nat (length (reserved ++ [nb])) - 1)%Z)
        else (reserved, i) in
      let s1 := mkGraphStore (config s0) reserved' (eventListeners s0) (calls s0) (diagnostics s0) in
      let palette := colorPalette (config s1) in
      if Z.gtb index (Z.of_nat (length palette) - 1)%Z then
        Ok (log "Ran out of colors for neighborhood" s1, js_index palette 0%Z)
      else Ok (s1, js_index palette index)
  end.

Definition defaultColor : string := "rgb(100, 100, 100)".

(** The property key [node.getDisplayName()] converts to. *)
Definition display_key (n : GraphObject) : string :=
  match getDisplayName n with Some l => l | None => "undefined" end.

(** [getColorForNodeByLabel(node)]: [this.config.nodeColors[key]] is an own
    color string, a member inherited from [Object.prototype] or [undefined];
    the member is returned when truthy (a non-empty string, any inherited
    member), the gray default otherwise.  A node with no label looks up the
    key ["undefined"]. *)
Definition getColorForNodeByLabel (node : option GraphObject) (c : GraphConfig) : Member string :=
  match node with
  | Some n =>
      match go_kind n with
      | KNode =>
          match js_get (nodeColors c) (display_key n) with
          | Own col => if String.eqb col "" then Own defaultColor else Own col
          | Inherited key => Inherited key
          | Absent => Own defaultColor
          end
      | KEdge => Own defaultColor
      end
  | None => Own defaultColor
  end.

(** A value that is either present or [undefined]. *)
Definition member_of_option {A : Type} (o : option A) : Member A :=
  match o with Some a => Own a | None => Absent end.

(** [getColorForNode(node)], with the returned value as a [Member string]: a
    string, an inherited member, or [undefined] (a palette index past the
    end).  The default branch evaluates [Error('Invalid color scheme',
    colorScheme)]; the method has no binding [colorScheme], so evaluating the
    argument raises a ReferenceError (class bodies are strict code). *)
Definition getColorForNode (node : option GraphObject) (s : GraphStore)
    : Result (GraphStore * Member string) :=
  match colorScheme (config s) with
  | NEIGHBORHOOD =>
      match getColorForNodeByNeighborhood node s with
      | Ok (s', col) => Ok (s', member_of_option col)
      | Throw e => Throw e
      end
  | LABEL => Ok (s, getColorForNodeByLabel node (config s))
  | OtherColorScheme _ => Throw (ReferenceError "colorScheme is not defined")
  end.

(** ** Listener registration *)

Definition EventKind_eqb (a b : EventKind) : bool :=
  match a, b with
  | CONFIG_CHANGE, CONFIG_CHANGE | FOCUS_OBJECT, FOCUS_OBJECT
  | SELECT_OBJECT, SELECT_OBJECT | COLOR_SCHEME, COLOR_SCHEME
  | VIEW_MODE_CHANGE, VIEW_MODE_CHANGE | LAYOUT_MODE_CHANGE, LAYOUT_MODE_CHANGE
  | SHOW_LABELS, SHOW_LABELS | NODE_EXPANSION_REQUEST, NODE_EXPANSION_REQUEST
  | GRAPH_DATA_UPDATE, GRAPH_DATA_UPDATE => true
  | _, _ => false
  end.

(** [addEventListener(eventType, callback)].  An unregistered symbol finds no
    entry and raises [Error('Invalid event type')]; a string key naming an
    inherited property finds a truthy non-array and fails on [.push]. *)
Definition addEventListener (t : EventType) (callback : nat) (s : GraphStore)
    : Result GraphStore :=
  match t with
  | Registered k =>
      Ok (mkGraphStore (config s) (reservedColorsByNeighborhood s)
            (fun k' => if EventKind_eqb k' k then eventListeners s k' ++ [callback]
                       else eventListeners s k')
            (calls s) (diagnostics s))
  | OtherSymbol _ => Throw (Error "Invalid event type")
  | StringKey key =>
      if existsb (String.eqb key) object_prototype_keys
      then Throw (TypeError "this.eventListeners[eventType].push is not a function")
      else Throw (Error "Invalid event type")
  end.

(** ** Schema index (class [Schema]) *)

Record NodeTable := mkNodeTable {
  nt_name : string;
  nt_labelNames : list string
}.

(** [sourceNodeTable.nodeTableName] and [destinationNodeTable.nodeTableName]
    are kept as the two endpoint names. *)
Record EdgeTable := mkEdgeTable {
  et_name : string;
  et_labelNames : list string;
  et_sourceNodeTableName : string;
  et_destinationNodeTableName : string
}.

Record RawSchema := mkRawSchema {
  nodeTables : list NodeTable;
  edgeTables : list EdgeTable
}.

(** [getNodeFromName(name)]: the first table of that name; [undefined] (after
    a console.error) when there is none. *)
Definition getNodeFromName (sch : RawSchema) (name : string) : option NodeTable :=
  head (List.filter (fun t => String.eqb (nt_name t) name) (nodeTables sch)).

(** [getEdgeFromName(name)] *)
Definition getEdgeFromName (sch : RawSchema) (name : string) : option EdgeTable :=
  head (List.filter (fun t => String.eqb (et_name t) name) (edgeTables sch)).

Record Connection := mkConnection { isConnected : bool; isSource : bool }.

(** [nodeIsConnectedToEdge(nodeName, edgeName)] *)
Definition nodeIsConnectedToEdge (sch : RawSchema) (nodeName edgeName : string) : Connection :=
  match getNodeFromName sch nodeName with
  | None => mkConnection false false
  | Some node =>
      match getEdgeFromName sch edgeName with
      | None => mkConnection false false
      | Some edge => mkConnection true (String.eqb (et_sourceNodeTableName edge) (nt_name node))
      end
  end.

(** ** The legacy [Edge] model ([window[namespace].Edge]) *)

(** A JavaScript value as [Number(value)] sees it: a number is kept as whether
    it is finite (the floating-point value itself plays no part), a BigInt as
    its integer, and an object as the outcome of its conversion to a
    primitive ([valueOf] / [toString] / [Symbol.toPrimitive]), which may
    raise. *)
#[warnings="-register-all"]
Inductive JsValue :=
| JUndefined
| JNull
| JBool (b : bool)
| JNumber (finite : bool)
| JBigInt (z : Z)
| JString (s : string)
| JSymbol (description : string)
| JObject (toPrimitive : Result JsValue).

Section LegacyEdge.

(** Whether the string numeric literal grammar reads a string as a finite
    number ([Number(" 12 ")] is 12, [Number("1e400")] is [Infinity],
    [Number("abc")] is [NaN]): kept abstract. *)
Variable StringToNumber_isFinite : string -> bool.

(** [Number.isFinite(Number(value))], or the error [Number(value)] raises:
    a Symbol cannot be converted, and an object converts through its
    primitive, which must not itself be an object.  A BigInt converts to the
    nearest double, which is [Infinity] from [2^1024 - 2^970] on. *)
Fixpoint isNumber (v : JsValue) : Result bool :=
  match v with
  | JUndefined => Ok false
  | JNull | JBool _ => Ok true
  | JNumber finite => Ok finite
  | JBigInt z => Ok (Z.abs z <? 2 ^ 1024 - 2 ^ 970)%Z
  | JString str => Ok (StringToNumber_isFinite str)
  | JSymbol _ => Throw (TypeError "Cannot convert a Symbol value to a number")
  | JObject (Ok (JObject _)) => Throw (TypeError "Cannot convert object to primitive value")
  | JObject (Ok p) => isNumber p
  | JObject (Throw e) => Throw e
  end.

(** What the base class's constructor builds. *)
Variable Base : Type.
(** [super({ label, title, properties })]: the legacy base class is not among
    the sources, so its constructor is a parameter, which may raise. *)
Variable GraphObject_super : JsValue -> JsValue -> JsValue -> Result Base.

(** The properties the constructor destructures (a missing one is
    [undefined]). *)
Record EdgeParams := mkEdgeParams {
  p_to : JsValue; p_from : JsValue; p_label : JsValue; p_properties : JsValue; p_title : JsValue
}.

Record LegacyEdge := mkLegacyEdge {
  e_base : Base;
  target : option JsValue;   (* class field, [undefined] until assigned *)
  source : option JsValue;
  instantiated : bool
}.

(** [constructor({ to, from, label, properties, title })]; the argument is
    [None] when it is [undefined] or [null], which the destructuring pattern
    rejects before the body runs (any other value is read for its properties).
    The condition [!this.isNumber(to) || !this.isNumber(from)] does not look
    at [from] when [to] is not a finite number. *)
Definition Edge_new (params : option EdgeParams) : Result LegacyEdge :=
  match params with
  | None => Throw (TypeError "Cannot destructure property 'to' of 'undefined' as it is undefined.")
  | Some p =>
      match GraphObject_super (p_label p) (p_title p) (p_properties p) with
      | Throw e => Throw e
      | Ok b =>
          match isNumber (p_to p) with
          | Throw e => Throw e
          | Ok false => Ok (mkLegacyEdge b None None false)
          | Ok true =>
              match isNumber (p_from p) with
              | Throw e => Throw e
              | Ok false => Ok (mkLegacyEdge b None None false)
              | Ok true => Ok (mkLegacyEdge b (Some (p_to p)) (Some (p_from p)) true)
              end
          end
      end
  end.

End LegacyEdge.

Arguments e_base {Base} _.
Arguments target {Base} _.
Arguments source {Base} _.
Arguments instantiated {Base} _.

(** ** [GraphObject] construction *)

(** An instance as far as construction is concerned. *)
Record GraphObjectInstance := mkGraphObjectInstance {
  gi_labels : list string;
  gi_instantiated : bool
}.

(** Modelled from the spec: the [GraphObject] constructor
    (models/graph-object.js) is not among the sources.  Its handling of a
    [labels] value that is not an Array is fixed by the repository's unit test
    "should fail to instantiate without labels", which expects
    [new GraphObject({properties: []})] to throw [TypeError('labels must be an
    Array')]; for an Array, the instance is marked not instantiated when it is
    empty (spec §3 and §4.2).  [labels = None] is a value that is not an Array
    (absent, or of another type). *)
Definition GraphObject_new (labels : option (list string)) : Result GraphObjectInstance :=
  match labels with
  | None => Throw (TypeError "labels must be an Array")
  | Some [] => Ok (mkGraphObjectInstance [] false)
  | Some ls => Ok (mkGraphObjectInstance ls true)
  end.

(** * Properties *)

(** ** Sample data *)

Definition person_node : GraphObject :=
  mkGraphObject 1 KNode "1" ["Person"] None None (Some 1%Z).

Definition company_node : GraphObject :=
  mkGraphObject 2 KNode "2" ["Company"] None None (Some 2%Z).

Definition empty_config (m : ViewMode) (cs : ColorScheme) : GraphConfig :=
  mkGraphConfig ∅ ∅ ∅ ∅ ∅ ["#FF0000"; "#00FF00"] cs m None None 0 0.

Definition store_of (c : GraphConfig) : GraphStore :=
  mkGraphStore c [] (fun _ => []) [] [].

(** ** setViewMode *)

(** The listener calls made by [setViewMode m] when the mode changes. *)
Definition view_mode_change_calls (m : ViewMode) (s : GraphStore) : list (nat * Payload) :=
  map (fun cb => (cb, PFocus None)) (eventListeners s FOCUS_OBJECT)
  ++ map (fun cb => (cb, PSelect None)) (eventListeners s SELECT_OBJECT)
  ++ map (fun cb => (cb, PViewMode m)) (eventListeners s VIEW_MODE_CHANGE).

(** Claim C1, as stated, fails when the requested mode is the current one:
    [setViewMode(DEFAULT)] in [DEFAULT] mode with [person_node] focused and
    selected returns at once, and both remain set. *)
Lemma C1_same_mode_keeps_focus :
  let s := store_of (set_selectedGraphObject (Some person_node)
             (set_focusedGraphObject (Some person_node) (empty_config DEFAULT LABEL))) in
  focusedGraphObject (config (setViewMode DEFAULT s)) = Some person_node /\
  selectedGraphObject (config (setViewMode DEFAULT s)) = Some person_node.
Proof. split; reflexivity. Qed.

(** Claim C1 (as amended): [setViewMode m] is a no-op when [m] is the current
    mode.  Otherwise it clears the focus (notifying the focus listeners), then
    the selection (notifying the select listeners), then sets the mode, then
    notifies the view-mode listeners; afterwards focus and selection are null
    and nothing else in the config changes. *)
Theorem setViewMode_spec : forall (m : ViewMode) (s : GraphStore),
  (m = viewMode (config s) -> setViewMode m s = s) /\
  (m <> viewMode (config s) ->
     let s' := setViewMode m s in
     focusedGraphObject (config s') = None /\
     selectedGraphObject (config s') = None /\
     config s' = set_viewMode m (set_selectedGraphObject None
                   (set_focusedGraphObject None (config s))) /\
     calls s' = calls s ++ view_mode_change_calls m s /\
     eventListeners s' = eventListeners s /\
     reservedColorsByNeighborhood s' = reservedColorsByNeighborhood s).
Proof.
  intros m s. split.
  - intros ->. unfold setViewMode. by rewrite decide_True.
  - intros Hne. unfold setViewMode. rewrite decide_False by exact Hne.
    destruct s as [c r l cl d]. simpl.
    unfold view_mode_change_calls. simpl.
    repeat split; try reflexivity.
    by rewrite !app_assoc.
Qed.

(** ** getNodes / getEdges in the other view modes *)

(** Claim C10: in every view mode other than [DEFAULT] and [SCHEMA] (such as
    [TABLE]) [getNodes()] and [getEdges()] return the empty array. *)
Theorem getNodes_getEdges_other_modes : forall (c : GraphConfig),
  viewMode c <> DEFAULT -> viewMode c <> SCHEMA ->
  getNodes c = [] /\ getEdges c = [].
Proof.
  intros c H1 H2. unfold getNodes, getEdges.
  destruct (viewMode c); try contradiction; split; reflexivity.
Qed.

Lemma getNodes_getEdges_other_modes_witness :
  let c := mkGraphConfig {[ "1" := person_node ]} ∅ {[ "0" := company_node ]} ∅ ∅ []
             LABEL TABLE None None 1 0 in
  (viewMode c <> DEFAULT /\ viewMode c <> SCHEMA) /\ (getNodes c = [] /\ getEdges c = []).
Proof.
  simpl. split; [split; discriminate |].
  apply getNodes_getEdges_other_modes; simpl; discriminate.
Defined.

(** ** appendGraphData *)

Lemma inherited_key_false : forall (k : string),
  inherited_key k = false <-> ~ In k object_prototype_keys.
Proof.
  intros k. unfold inherited_key. rewrite <- not_true_iff_false, existsb_exists.
  split.
  - intros H Hin. apply H. exists k. split; [done | apply String.eqb_refl].
  - intros H (x & Hx & Heq). apply String.eqb_eq in Heq. subst x. contradiction.
Qed.

Lemma fresh_nodes_spec : forall (c : GraphConfig) (xs : option (list NodeData)) (d : NodeData),
  In d (fresh_nodes c xs) <->
  exists l, xs = Some l /\ In d l /\ nodes c !! nd_identifier d = None /\ inherited_key (nd_identifier d) = false.
Proof.
  intros c xs d. unfold fresh_nodes, absent_from, js_get. destruct xs as [l|]; simpl.
  - rewrite filter_In. split.
    + intros [Hin Hab]. exists l. split; [done|]. split; [done|].
      destruct (nodes c !! nd_identifier d); [discriminate|].
      split; [done|]. by destruct (inherited_key (nd_identifier d)).
    + intros (l' & [= <-] & Hin & Hn & Hi). by rewrite Hn, Hi.
  - split; [done|]. by intros (l' & ? & _).
Qed.

Lemma fresh_edges_spec : forall (c : GraphConfig) (xs : option (list EdgeData)) (d : EdgeData),
  In d (fresh_edges c xs) <->
  exists l, xs = Some l /\ In d l /\ edges c !! ed_identifier d = None /\ inherited_key (ed_identifier d) = false.
Proof.
  intros c xs d. unfold fresh_edges, absent_from, js_get. destruct xs as [l|]; simpl.
  - rewrite filter_In. split.
    + intros [Hin Hab]. exists l. split; [done|]. split; [done|].
      destruct (edges c !! ed_identifier d); [discriminate|].
      split; [done|]. by destruct (inherited_key (ed_identifier d)).
    + intros (l' & [= <-] & Hin & Hn & Hi). by rewrite Hn, Hi.
  - split; [done|]. by intros (l' & ? & _).
Qed.

(** Claim C2: [appendGraphData] drops every item whose identifier has an
    entry in the live map (and, as the truthiness test also fires on them,
    every item whose identifier names a member inherited from
    [Object.prototype], such as ["toString"]), keeping exactly the others;
    when nothing is left it returns [undefined] with the whole store unchanged
    and no listener called; otherwise it delegates to the configuration's merge
    and then calls the graph-data-update listeners with the current graph and
    the filtered items. *)
Theorem appendGraphData_filters_then_delegates :
  forall (cfgAppend : list NodeData -> list EdgeData -> GraphConfig -> GraphConfig)
         (nodesData : option (list NodeData)) (edgesData : option (list EdgeData))
         (s : GraphStore),
  let newNodes := fresh_nodes (config s) nodesData in
  let newEdges := fresh_edges (config s) edgesData in
  (forall d, is_Some (nodes (config s) !! nd_identifier d) -> ~ In d newNodes) /\
  (forall d, is_Some (edges (config s) !! ed_identifier d) -> ~ In d newEdges) /\
  (forall d, In d newNodes <->
     exists l, nodesData = Some l /\ In d l /\ nodes (config s) !! nd_identifier d = None /\
       ~ In (nd_identifier d) object_prototype_keys) /\
  (forall d, In d newEdges <->
     exists l, edgesData = Some l /\ In d l /\ edges (config s) !! ed_identifier d = None /\
       ~ In (ed_identifier d) object_prototype_keys) /\
  (newNodes = [] -> newEdges = [] ->
     appendGraphData cfgAppend nodesData edgesData s = (s, None)) /\
  (newNodes <> [] \/ newEdges <> [] ->
     let c' := cfgAppend newNodes newEdges (config s) in
     appendGraphData cfgAppend nodesData edgesData s =
       (notify GRAPH_DATA_UPDATE (PGraphData (getNodes c') (getEdges c') newNodes newEdges)
          (set_config c' s),
        Some (newNodes, newEdges))).
Proof.
  intros cfgAppend nodesData edgesData s newNodes newEdges.
  split; [intros d [o Ho] Hin; apply fresh_nodes_spec in Hin as (_ & _ & _ & Hn & _); congruence|].
  split; [intros d [o Ho] Hin; apply fresh_edges_spec in Hin as (_ & _ & _ & Hn & _); congruence|].
  split.
  { intros d. unfold newNodes. rewrite fresh_nodes_spec. setoid_rewrite inherited_key_false. reflexivity. }
  split.
  { intros d. unfold newEdges. rewrite fresh_edges_spec. setoid_rewrite inherited_key_false. reflexivity. }
  split.
  - intros Hn He. unfold appendGraphData. fold newNodes newEdges.
    by rewrite Hn, He.
  - intros Hne. unfold appendGraphData. fold newNodes newEdges.
    destruct newNodes as [|n ns], newEdges as [|e es]; try reflexivity.
    destruct Hne; congruence.
Qed.

(** Inserting parsed items never removes a key. *)
Lemma merge_parsed_keeps {D : Type} : forall (key : D -> string) parse (ds : list D) m k,
  is_Some (m !! k) -> is_Some (merge_parsed key parse ds m !! k).
Proof.
  intros key parse ds. induction ds as [|d ds IH]; intros m k Hk; simpl; [done|].
  apply IH. destruct (parse d) as [o|]; [|done].
  destruct (decide (key d = k)) as [<-|Hne].
  - by rewrite lookup_insert_eq.
  - by rewrite lookup_insert_ne.
Qed.

(** Every item that parses ends up under its key. *)
Lemma merge_parsed_covers {D : Type} : forall (key : D -> string) parse (ds : list D) m d o,
  In d ds -> parse d = Some o -> is_Some (merge_parsed key parse ds m !! key d).
Proof.
  intros key parse ds. induction ds as [|d' ds IH]; intros m d o Hin Hp; [done|].
  simpl. destruct Hin as [<-|Hin].
  - apply merge_parsed_keeps. rewrite Hp. by rewrite lookup_insert_eq.
  - by eapply IH.
Qed.

(** Items that all fail to parse leave the map as it is. *)
Lemma merge_parsed_none {D : Type} : forall (key : D -> string) parse (ds : list D) m,
  (forall d, In d ds -> parse d = None) -> merge_parsed key parse ds m = m.
Proof.
  intros key parse ds. induction ds as [|d ds IH]; intros m Hall; simpl; [done|].
  rewrite (Hall d (or_introl eq_refl)). apply IH. intros d' Hd'. apply Hall. by right.
Qed.

Lemma appendGraphData_config :
  forall cfgAppend (nodesData : option (list NodeData)) (edgesData : option (list EdgeData)) s,
  config (fst (appendGraphData cfgAppend nodesData edgesData s)) =
  match fresh_nodes (config s) nodesData, fresh_edges (config s) edgesData with
  | [], [] => config s
  | nn, ne => cfgAppend nn ne (config s)
  end.
Proof.
  intros. unfold appendGraphData.
  destruct (fresh_nodes (config s) nodesData), (fresh_edges (config s) edgesData); reflexivity.
Qed.

(** After a merge of the fresh items, an item of the same batch that is still
    fresh is one that does not parse. *)
Lemma refresh_nodes_unparsable :
  forall parseNode parseEdge (c : GraphConfig) nodesData ne d,
  In d (fresh_nodes (spec_config_appendGraphData parseNode parseEdge
                       (fresh_nodes c nodesData) ne c) nodesData) ->
  parseNode d = None.
Proof.
  intros parseNode parseEdge c nodesData ne d Hin.
  apply fresh_nodes_spec in Hin as (l & Hl & Hd & Hnone & Hi). simpl in Hnone.
  destruct (parseNode d) as [o|] eqn:Hp; [exfalso|done].
  destruct (nodes c !! nd_identifier d) as [o'|] eqn:Hc.
  - assert (is_Some (merge_parsed nd_identifier parseNode (fresh_nodes c nodesData) (nodes c)
                       !! nd_identifier d)) as [? Hs].
    { apply merge_parsed_keeps. by rewrite Hc. }
    congruence.
  - assert (In d (fresh_nodes c nodesData)) as Hf.
    { apply fresh_nodes_spec. eauto. }
    destruct (merge_parsed_covers nd_identifier parseNode _ (nodes c) d o Hf Hp) as [? Hs].
    congruence.
Qed.

Lemma refresh_edges_unparsable :
  forall parseNode parseEdge (c : GraphConfig) nn edgesData d,
  In d (fresh_edges (spec_config_appendGraphData parseNode parseEdge
                       nn (fresh_edges c edgesData) c) edgesData) ->
  parseEdge d = None.
Proof.
  intros parseNode parseEdge c nn edgesData d Hin.
  apply fresh_edges_spec in Hin as (l & Hl & Hd & Hnone & Hi). simpl in Hnone.
  destruct (parseEdge d) as [o|] eqn:Hp; [exfalso|done].
  destruct (edges c !! ed_identifier d) as [o'|] eqn:Hc.
  - assert (is_Some (merge_parsed ed_identifier parseEdge (fresh_edges c edgesData) (edges c)
                       !! ed_identifier d)) as [? Hs].
    { apply merge_parsed_keeps. by rewrite Hc. }
    congruence.
  - assert (In d (fresh_edges c edgesData)) as Hf.
    { apply fresh_edges_spec. eauto. }
    destruct (merge_parsed_covers ed_identifier parseEdge _ (edges c) d o Hf Hp) as [? Hs].
    congruence.
Qed.

Lemma spec_config_appendGraphData_counts :
  forall parseNode parseEdge nn ne (c : GraphConfig),
  nodeCount (spec_config_appendGraphData parseNode parseEdge nn ne c) =
    size (nodes (spec_config_appendGraphData parseNode parseEdge nn ne c)) /\
  edgeCount (spec_config_appendGraphData parseNode parseEdge nn ne c) =
    size (edges (spec_config_appendGraphData parseNode parseEdge nn ne c)).
Proof. intros. split; reflexivity. Qed.

Lemma spec_config_appendGraphData_unparsable :
  forall parseNode parseEdge nn ne (c : GraphConfig),
  (forall d, In d nn -> parseNode d = None) -> (forall d, In d ne -> parseEdge d = None) ->
  nodes (spec_config_appendGraphData parseNode parseEdge nn ne c) = nodes c /\
  edges (spec_config_appendGraphData parseNode parseEdge nn ne c) = edges c.
Proof. intros. simpl. split; by apply merge_parsed_none. Qed.

(** Claim C3: submitting the same batch a second time leaves [nodeCount] and
    [edgeCount] as the first submission left them (with the configuration's
    merge modelled from the spec, for any parser of the records). *)
Theorem appendGraphData_resubmit_counts :
  forall (parseNode : NodeData -> option GraphObject) (parseEdge : EdgeData -> option GraphObject)
         (nodesData : option (list NodeData)) (edgesData : option (list EdgeData))
         (s : GraphStore),
  let app := appendGraphData (spec_config_appendGraphData parseNode parseEdge) nodesData edgesData in
  let s1 := fst (app s) in
  let s2 := fst (app s1) in
  nodeCount (config s2) = nodeCount (config s1) /\ edgeCount (config s2) = edgeCount (config s1).
Proof.
  intros parseNode parseEdge nodesData edgesData s app s1 s2.
  set (c := config s).
  assert (Hc1 : config s1 =
            match fresh_nodes c nodesData, fresh_edges c edgesData with
            | [], [] => c
            | nn, ne => spec_config_appendGraphData parseNode parseEdge nn ne c
            end) by apply appendGraphData_config.
  assert (Hs2 : config s2 =
            match fresh_nodes (config s1) nodesData, fresh_edges (config s1) edgesData with
            | [], [] => config s1
            | nn, ne => spec_config_appendGraphData parseNode parseEdge nn ne (config s1)
            end) by apply appendGraphData_config.
  destruct (decide (fresh_nodes c nodesData = [] /\ fresh_edges c edgesData = [])) as [[Hn1 He1]|Hne].
  - (* the first call returned at once, and so does the second *)
    assert (Hs1 : s1 = s).
    { subst s1 app. unfold appendGraphData. fold c. by rewrite Hn1, He1. }
    subst s2. rewrite Hs1. fold s1. rewrite Hs1. split; reflexivity.
  - (* the first call merged: the second only sees items that do not parse *)
    assert (Hc1' : config s1 = spec_config_appendGraphData parseNode parseEdge
                     (fresh_nodes c nodesData) (fresh_edges c edgesData) c).
    { rewrite Hc1. destruct (fresh_nodes c nodesData), (fresh_edges c edgesData);
      try reflexivity. exfalso. by apply Hne. }
    assert (HN : forall d, In d (fresh_nodes (config s1) nodesData) -> parseNode d = None).
    { intros d Hd. rewrite Hc1' in Hd. eapply refresh_nodes_unparsable. exact Hd. }
    assert (HE : forall d, In d (fresh_edges (config s1) edgesData) -> parseEdge d = None).
    { intros d Hd. rewrite Hc1' in Hd. eapply refresh_edges_unparsable. exact Hd. }
    destruct (spec_config_appendGraphData_unparsable parseNode parseEdge _ _ (config s1) HN HE)
      as [HnodesEq HedgesEq].
    rewrite Hs2.
    destruct (fresh_nodes (config s1) nodesData) as [|n2 ns2];
    destruct (fresh_edges (config s1) edgesData) as [|e2 es2];
    try (split; reflexivity);
    (rewrite (proj1 (spec_config_appendGraphData_counts _ _ _ _ _)),
             (proj2 (spec_config_appendGraphData_counts _ _ _ _ _)), HnodesEq, HedgesEq;
     rewrite Hc1'; split; reflexivity).
Qed.

(** ** getEdgeDesign *)

(** An edge whose identifier ["1"] is also the identifier of [person_node]. *)
Definition knows_edge : GraphObject :=
  mkGraphObject 11 KEdge "1" ["KNOWS"] (Some "2") (Some "3") None.

(** [WORKS_AT] from [person_node] (uid ["1"]) to [company_node] (uid ["2"]). *)
Definition works_at_edge : GraphObject :=
  mkGraphObject 10 KEdge "edge-1" ["WORKS_AT"] (Some "1") (Some "2") None.

(** Claim C4 at the failing input: with the edge [knows_edge] selected, the
    unrelated edge [works_at_edge] is styled "focused", because its source uid
    equals the selected edge's uid; the priority as stated gives "default"
    (the selection is not a node, so the edge touches no selected node). *)
Theorem getEdgeDesign_selected_edge_uid_clash :
  let c := set_selectedGraphObject (Some knows_edge) (empty_config DEFAULT LABEL) in
  getEdgeDesign works_at_edge c = StyleFocused /\
  edgeDesign_as_specified works_at_edge c = StyleDefault.
Proof. split; reflexivity. Qed.

Definition node_or_null (x : option GraphObject) : bool :=
  match x with Some o => match go_kind o with KNode => true | KEdge => false end | None => true end.

(** When the selected and focused objects are nodes (or null), the code follows
    the 4-way priority as stated. *)
Lemma getEdgeDesign_node_selection : forall (edge : GraphObject) (c : GraphConfig),
  node_or_null (selectedGraphObject c) = true ->
  node_or_null (focusedGraphObject c) = true ->
  getEdgeDesign edge c = edgeDesign_as_specified edge c.
Proof.
  intros edge c Hs Hf. unfold getEdgeDesign, edgeDesign_as_specified,
    edgeIsConnectedToSelectedNode, edgeIsConnectedToFocusedNode.
  destruct (selectedGraphObject c) as [sel|] eqn:Esel; simpl.
  - destruct (obj_same edge sel); [reflexivity|].
    simpl in Hs. destruct (go_kind sel); [reflexivity | discriminate].
  - destruct (focusedGraphObject c) as [foc|]; simpl; [|reflexivity].
    destruct (obj_same edge foc); [reflexivity|].
    simpl in Hf. destruct (go_kind foc); [|discriminate]. simpl. by rewrite orb_false_r.
Qed.

(** ** getColorForNode *)

Lemma indexOf_absent : forall (x : option Z) (l : list (option Z)),
  x ∉ l -> indexOf x l = (-1)%Z.
Proof.
  intros x l. induction l as [|y l IH]; intros Hx; simpl; [done|].
  rewrite decide_False by (intros ->; apply Hx; by left).
  rewrite IH; [done|]. intros H. apply Hx. by right.
Qed.

Lemma indexOf_first : forall (x : option Z) (l : list (option Z)),
  x ∈ l -> exists i, indexOf x l = Z.of_nat i /\ l !! i = Some x /\
                     forall j, j < i -> l !! j <> Some x.
Proof.
  intros x l. induction l as [|y l IH]; intros Hx; [by apply not_elem_of_nil in Hx|].
  simpl. destruct (decide (y = x)) as [->|Hne].
  - exists 0. split; [done|]. split; [done|]. intros j Hj. lia.
  - apply elem_of_cons in Hx as [->|Hx]; [done|].
    destruct (IH Hx) as (i & Hi & Hl & Hfirst).
    exists (S i). rewrite Hi. split.
    { rewrite (proj2 (Z.eqb_neq _ _)) by lia. lia. }
    split; [done|].
    intros [|j] Hj; simpl; [congruence|]. apply Hfirst. lia.
Qed.

(** The reserved neighborhoods after looking [nb] up: appended when unseen. *)
Definition reserve_neighborhood (nb : option Z) (reserved : list (option Z)) : list (option Z) :=
  if bool_decide (nb ∈ reserved) then reserved else reserved ++ [nb].

Lemma js_index_of_nat : forall (l : list string) (i : nat), js_index l (Z.of_nat i) = l !! i.
Proof.
  intros l i. unfold js_index. rewrite (proj2 (Z.ltb_ge _ _)) by lia. by rewrite Nat2Z.id.
Qed.

(** The slot used by [getColorForNodeByNeighborhood]: the first position of
    [nb] in the reserved list once it has been reserved. *)
Lemma neighborhood_slot : forall (nb : option Z) (reserved : list (option Z)),
  exists slot,
    (if Z.eqb (indexOf nb reserved) (-1)
     then (reserved ++ [nb], (Z.of_nat (length (reserved ++ [nb])) - 1)%Z)
     else (reserved, indexOf nb reserved)) = (reserve_neighborhood nb reserved, Z.of_nat slot) /\
    reserve_neighborhood nb reserved !! slot = Some nb /\
    (forall j, j < slot -> reserve_neighborhood nb reserved !! j <> Some nb).
Proof.
  intros nb reserved. unfold reserve_neighborhood.
  destruct (decide (nb ∈ reserved)) as [Hin|Hnin].
  - rewrite bool_decide_eq_true_2 by done.
    destruct (indexOf_first nb reserved Hin) as (i & Hi & Hl & Hfirst).
    exists i. rewrite Hi, (proj2 (Z.eqb_neq _ _)) by lia. auto.
  - rewrite bool_decide_eq_false_2 by done.
    rewrite (indexOf_absent nb reserved Hnin), Z.eqb_refl.
    exists (length reserved). split.
    { rewrite length_app. simpl. f_equal. lia. }
    split.
    + rewrite lookup_app_r by lia. by rewrite Nat.sub_diag.
    + intros j Hj. rewrite lookup_app_l by lia. intros Hl.
      apply Hnin. apply list_elem_of_lookup. eauto.
Qed.

Lemma getColorForNodeByNeighborhood_spec : forall (n : GraphObject) (s : GraphStore),
  let nb := go_neighborhood n in
  let reserved' := reserve_neighborhood nb (reservedColorsByNeighborhood s) in
  let palette := colorPalette (config s) in
  exists s' slot,
    getColorForNodeByNeighborhood (Some n) s =
      Ok (s', if decide (slot < length palette) then palette !! slot else palette !! 0) /\
    config s' = config s /\ eventListeners s' = eventListeners s /\ calls s' = calls s /\
    reservedColorsByNeighborhood s' = reserved' /\
    reserved' !! slot = Some nb /\ (forall j, j < slot -> reserved' !! j <> Some nb) /\
    (length palette <= slot -> "Ran out of colors for neighborhood" ∈ diagnostics s').
Proof.
  intros n s nb reserved' palette. unfold getColorForNodeByNeighborhood. fold nb.
  set (s0 := match nb with Some _ => s | None => log "Node must have a neighborhood" s end).
  assert (H0 : reservedColorsByNeighborhood s0 = reservedColorsByNeighborhood s /\
               config s0 = config s /\ eventListeners s0 = eventListeners s /\ calls s0 = calls s)
    by (subst s0; destruct nb; repeat split).
  destruct H0 as (Hr & Hc & Hl & Hk).
  rewrite Hr.
  destruct (neighborhood_slot nb (reservedColorsByNeighborhood s)) as (slot & Hpair & Hat & Hfirst).
  rewrite Hpair. simpl. rewrite Hc. fold palette.
  destruct (decide (slot < length palette)) as [Hlt|Hge].
  - rewrite Z.gtb_ltb, (proj2 (Z.ltb_ge _ _)) by lia.
    eexists _, slot. rewrite js_index_of_nat, decide_True by exact Hlt.
    split; [reflexivity|].
    simpl. repeat split; auto. lia.
  - rewrite Z.gtb_ltb, (proj2 (Z.ltb_lt _ _)) by lia.
    eexists _, slot. rewrite decide_False by exact Hge. split; [reflexivity|].
    simpl. repeat split; auto.
    intros _. apply list_elem_of_In, in_or_app. right. by left.
Qed.

(** A node whose label names a member of [Object.prototype]. *)
Definition toString_node : GraphObject :=
  mkGraphObject 3 KNode "3" ["toString"] None None (Some 3%Z).

(** Claim C5, at its failing input: under [LABEL], the node [toString_node],
    whose label ["toString"] has no entry in [nodeColors], is not given the
    gray default: the lookup [nodeColors["toString"]] finds the function
    [Object.prototype.toString], which is truthy and is returned as the
    color. *)
Theorem getColorForNode_inherited_label :
  let s := store_of (empty_config DEFAULT LABEL) in
  colorScheme (config s) = LABEL /\
  nodeColors (config s) !! display_key toString_node = None /\
  getColorForNode (Some toString_node) s = Ok (s, Inherited "toString") /\
  getColorForNode (Some toString_node) s <> Ok (s, Own defaultColor).
Proof.
  cbv zeta. split; [reflexivity|]. split; [vm_compute; reflexivity|].
  assert (H : getColorForNode (Some toString_node) (store_of (empty_config DEFAULT LABEL)) =
              Ok (store_of (empty_config DEFAULT LABEL), Inherited "toString"))
    by (vm_compute; reflexivity).
  split; [exact H|]. rewrite H. discriminate.
Qed.

(** Claim C6, as stated, fails: under [NEIGHBORHOOD], coloring [person_node]
    (neighborhood 1) in a fresh store records that neighborhood in
    [reservedColorsByNeighborhood], so the store after the call differs from
    the store before it. *)
Lemma C6_neighborhood_lookup_mutates :
  let s := store_of (empty_config DEFAULT NEIGHBORHOOD) in
  exists s' col, getColorForNode (Some person_node) s = Ok (s', col) /\
    reservedColorsByNeighborhood s = [] /\
    reservedColorsByNeighborhood s' = [Some 1%Z] /\ s' <> s.
Proof.
  simpl. eexists _, _. split; [reflexivity|].
  split; [reflexivity|]. split; [reflexivity|].
  intros H. apply (f_equal reservedColorsByNeighborhood) in H. discriminate.
Qed.

(** Claim C6 (as amended): [getColorForNode] never changes the configuration,
    the registered listeners or the listener calls.  Under [LABEL] it changes
    nothing at all; under [NEIGHBORHOOD] its only mutation is appending a
    neighborhood id not yet recorded to [reservedColorsByNeighborhood] (besides
    console diagnostics).  When it raises, it has made no change before the
    raise (no new store is produced). *)
Theorem getColorForNode_effects : forall (node : option GraphObject) (s : GraphStore),
  match getColorForNode node s with
  | Ok (s', _) =>
      config s' = config s /\ eventListeners s' = eventListeners s /\ calls s' = calls s /\
      (colorScheme (config s) = LABEL -> s' = s) /\
      (reservedColorsByNeighborhood s' = reservedColorsByNeighborhood s \/
       exists nb, (nb ∉ reservedColorsByNeighborhood s) /\
         reservedColorsByNeighborhood s' = reservedColorsByNeighborhood s ++ [nb])
  | Throw _ => True
  end.
Proof.
  intros node s. unfold getColorForNode.
  destruct (colorScheme (config s)) eqn:Hcs; [| |exact I].
  - destruct node as [n|]; [|exact I].
    destruct (getColorForNodeByNeighborhood_spec n s)
      as (s' & slot & H & Hc & Hl & Hk & Hr & _).
    rewrite H. repeat split; auto.
    + intros Hlab. congruence.
    + rewrite Hr. unfold reserve_neighborhood.
      destruct (decide (go_neighborhood n ∈ reservedColorsByNeighborhood s)) as [Hin|Hnin].
      * left. by rewrite bool_decide_eq_true_2.
      * right. exists (go_neighborhood n). split; [done|]. by rewrite bool_decide_eq_false_2.
  - repeat split; auto.
Qed.

(** ** Edge construction *)

(** A base-class constructor that returns. *)
Definition returning_super (label title properties : JsValue) : Result unit := Ok tt.

(** Claim C7, as stated, fails: an [Edge] construction can raise.  [new Edge()]
    raises a TypeError while destructuring its missing argument, before any
    other code runs; and with a base class whose constructor returns, an
    endpoint [to] that is a Symbol makes [Number(to)] raise a TypeError (the
    string conversion is not consulted on these inputs). *)
Lemma C7_construction_throws :
  Edge_new (fun _ => true) unit returning_super None =
    Throw (TypeError "Cannot destructure property 'to' of 'undefined' as it is undefined.") /\
  Edge_new (fun _ => true) unit returning_super
    (Some (mkEdgeParams (JSymbol "to") (JNumber true) JUndefined JUndefined JUndefined)) =
    Throw (TypeError "Cannot convert a Symbol value to a number").
Proof. split; reflexivity. Qed.

(** [Number(value)] raises only on a Symbol or on an object. *)
Lemma isNumber_throws : forall (strFinite : string -> bool) (v : JsValue) (e : JsError),
  isNumber strFinite v = Throw e -> (exists d, v = JSymbol d) \/ (exists t, v = JObject t).
Proof.
  intros strFinite v e H. destruct v as [| | | | | |d|t]; try discriminate; eauto.
Qed.

(** Claim C7 (as amended): an [Edge] construction raises a TypeError when its
    argument is [undefined] or [null], raises what the base-class constructor
    raises, and raises exactly when [Number(to)] raises, or [to] is a finite
    number and [Number(from)] raises; only a Symbol or an object can make
    [Number] raise.  Otherwise it returns an edge, instantiated exactly when
    both [to] and [from] convert to finite numbers, with [target] / [source]
    holding them, and otherwise marked not instantiated with [target] /
    [source] left unset. *)
Theorem Edge_new_outcomes :
  forall (strFinite : string -> bool) (Base : Type)
         (super : JsValue -> JsValue -> JsValue -> Result Base) (params : option EdgeParams),
  let r := Edge_new strFinite Base super params in
  (params = None ->
     r = Throw (TypeError "Cannot destructure property 'to' of 'undefined' as it is undefined.")) /\
  (forall p e, params = Some p -> super (p_label p) (p_title p) (p_properties p) = Throw e ->
     r = Throw e) /\
  (forall p b, params = Some p -> super (p_label p) (p_title p) (p_properties p) = Ok b ->
     (forall e, r = Throw e <->
        isNumber strFinite (p_to p) = Throw e \/
        (isNumber strFinite (p_to p) = Ok true /\ isNumber strFinite (p_from p) = Throw e)) /\
     (forall ed, r = Ok ed ->
        e_base ed = b /\
        (instantiated ed = true <->
           isNumber strFinite (p_to p) = Ok true /\ isNumber strFinite (p_from p) = Ok true) /\
        (if instantiated ed then target ed = Some (p_to p) /\ source ed = Some (p_from p)
         else target ed = None /\ source ed = None))) /\
  (forall v e, isNumber strFinite v = Throw e ->
     (exists d, v = JSymbol d) \/ (exists t, v = JObject t)).
Proof.
  intros strFinite Base super params r.
  split; [intros ->; reflexivity|].
  split; [intros p e -> He; subst r; simpl; by rewrite He|].
  split; [|apply isNumber_throws].
  intros p b -> Hb. subst r. simpl. rewrite Hb.
  destruct (isNumber strFinite (p_to p)) as [[|]|e1];
  [destruct (isNumber strFinite (p_from p)) as [[|]|e2]| |];
  (split;
   [ intros e; split;
     [ intros He; (discriminate He || (injection He as <-; auto))
     | intros [He|[He1 He2]]; congruence ]
   | intros ed Hed;
     (discriminate Hed ||
      (injection Hed as <-; simpl;
       split; [reflexivity|];
       split; [split; [intros Hi; (discriminate Hi || auto) | intros [Ht Hf]; congruence] | auto])) ]).
Qed.

(** ** GraphObject construction *)

(** Claim C8, as stated, fails: a [GraphObject] constructed without labels
    raises [TypeError('labels must be an Array')] instead of returning an
    instance marked not instantiated. *)
Lemma C8_missing_labels_throws :
  GraphObject_new None = Throw (TypeError "labels must be an Array") /\
  forall gi, GraphObject_new None <> Ok gi.
Proof. split; [reflexivity | discriminate]. Qed.

(** Claim C8 (as amended): constructing a [GraphObject] whose [labels] is not
    an Array (for instance missing) raises [TypeError('labels must be an
    Array')] to the caller; with an Array of labels it returns an instance,
    marked not instantiated exactly when the array is empty. *)
Theorem GraphObject_new_labels :
  forall (labels : option (list string)),
  (GraphObject_new labels = Throw (TypeError "labels must be an Array") <-> labels = None) /\
  (forall ls, labels = Some ls ->
     exists gi, GraphObject_new labels = Ok gi /\ gi_labels gi = ls /\
                (gi_instantiated gi = false <-> ls = [])).
Proof.
  intros labels. split.
  - destruct labels as [[|l ls]|]; simpl; split; congruence.
  - intros ls ->. destruct ls as [|l ls]; simpl; eexists; (split; [reflexivity|]); simpl;
    split; [reflexivity| split; congruence | reflexivity | split; congruence].
Qed.

(** ** Schema connections *)

Lemma getNodeFromName_None : forall (sch : RawSchema) (name : string),
  getNodeFromName sch name = None <-> Forall (fun t => nt_name t <> name) (nodeTables sch).
Proof.
  intros sch name. unfold getNodeFromName. induction (nodeTables sch) as [|t ts IH]; simpl.
  - split; auto.
  - rewrite Forall_cons. destruct (String.eqb_spec (nt_name t) name) as [Heq|Hne]; simpl.
    + split; [discriminate | tauto].
    + rewrite IH. tauto.
Qed.

Lemma getEdgeFromName_None : forall (sch : RawSchema) (name : string),
  getEdgeFromName sch name = None <-> Forall (fun t => et_name t <> name) (edgeTables sch).
Proof.
  intros sch name. unfold getEdgeFromName. induction (edgeTables sch) as [|t ts IH]; simpl.
  - split; auto.
  - rewrite Forall_cons. destruct (String.eqb_spec (et_name t) name) as [Heq|Hne]; simpl.
    + split; [discriminate | tauto].
    + rewrite IH. tauto.
Qed.

(** Claim C9: [nodeIsConnectedToEdge(nodeName, edgeName)] reports
    [isConnected = false] when either name resolves to no table; when both
    resolve, [isConnected = true] and [isSource] holds exactly when the edge
    table's source node table name is the node table's name. *)
Theorem nodeIsConnectedToEdge_spec : forall (sch : RawSchema) (nodeName edgeName : string),
  (getNodeFromName sch nodeName = None \/ getEdgeFromName sch edgeName = None ->
     isConnected (nodeIsConnectedToEdge sch nodeName edgeName) = false) /\
  (forall nt et, getNodeFromName sch nodeName = Some nt -> getEdgeFromName sch edgeName = Some et ->
     isConnected (nodeIsConnectedToEdge sch nodeName edgeName) = true /\
     (isSource (nodeIsConnectedToEdge sch nodeName edgeName) = true <->
      et_sourceNodeTableName et = nt_name nt)).
Proof.
  intros sch nodeName edgeName. unfold nodeIsConnectedToEdge. split.
  - intros [Hn|He].
    + by rewrite Hn.
    + destruct (getNodeFromName sch nodeName); [by rewrite He | reflexivity].
  - intros nt et Hn He. rewrite Hn, He. simpl. split; [reflexivity|].
    apply String.eqb_eq.
Qed.

(** ** Concrete runs *)

(** A parser that instantiates every node record as a node of that uid. *)
Definition parse_any_node (d : NodeData) : option GraphObject :=
  Some (mkGraphObject 0 KNode (nd_identifier d) (nd_labels d) None None None).

(** The unit test "nodeCount is updated correctly when appending graph data",
    run through the store: node "1" is filtered out, node "2" is merged, and a
    second submission changes nothing. *)
Example append_twice_counts :
  let c0 := mkGraphConfig {[ "1" := person_node ]} ∅ ∅ ∅ ∅ [] LABEL DEFAULT None None 1 0 in
  let batch := Some [mkNodeData "1" ["Person"]; mkNodeData "2" ["Company"]] in
  let app := appendGraphData (spec_config_appendGraphData parse_any_node (fun _ => None))
               batch (Some []) in
  let s1 := app (store_of c0) in
  let s2 := app (fst s1) in
  snd s1 = Some ([mkNodeData "2" ["Company"]], []) /\
  nodeCount (config (fst s1)) = 2 /\ snd s2 = None /\ nodeCount (config (fst s2)) = 2.
Proof. vm_compute. repeat split; reflexivity. Qed.

(** Colors by neighborhood: neighborhoods 1 and 2 take the two palette slots,
    neighborhood 1 keeps its slot, and a third neighborhood falls back to
    [palette[0]]. *)
Example neighborhood_colors :
  let s0 := store_of (empty_config DEFAULT NEIGHBORHOOD) in
  let nb k := mkGraphObject (10 + k) KNode "n" ["L"] None None (Some (Z.of_nat k)) in
  match getColorForNode (Some (nb 1)) s0 with
  | Ok (s1, c1) =>
      match getColorForNode (Some (nb 2)) s1 with
      | Ok (s2, c2) =>
          match getColorForNode (Some (nb 1)) s2 with
          | Ok (s3, c3) =>
              match getColorForNode (Some (nb 3)) s3 with
              | Ok (s4, c4) =>
                  c1 = Own "#FF0000" /\ c2 = Own "#00FF00" /\ c3 = Own "#FF0000" /\
                  c4 = Own "#FF0000" /\
                  diagnostics s4 = ["Ran out of colors for neighborhood"]
              | Throw _ => False
              end
          | Throw _ => False
          end
      | Throw _ => False
      end
  | Throw _ => False
  end.
Proof. vm_compute. repeat split; reflexivity. Qed.

(** * Further store and schema operations *)

(** ** Edges and neighbors of a node *)

(** [edge.sourceUid === node.uid || edge.destinationUid === node.uid] *)
Definition edge_touches_uid (uid : string) (e : GraphObject) : bool :=
  uid_is (go_sourceUid e) uid || uid_is (go_destinationUid e) uid.

(** [getEdgesOfNode(node)]: the guard [!node instanceof Node] is always false,
    so only a null [node] is turned away. *)
Definition store_getEdgesOfNode (node : option GraphObject) (c : GraphConfig) : list GraphObject :=
  match node with
  | None => []
  | Some n => List.filter (edge_touches_uid (go_uid n)) (getEdges c)
  end.

(** [this.config.nodes[key]] for an endpoint uid ([undefined] converts to the
    key ["undefined"]): a live node, a member inherited from [Object.prototype]
    or [undefined]. *)
Definition live_node_at (c : GraphConfig) (x : option string) : Member GraphObject :=
  js_get (nodes c) (match x with Some k => k | None => "undefined" end).

(** [getNeighborsOfNode(node)]: the other endpoint of each edge of the node,
    looked up in the live map [config.nodes]. *)
Definition getNeighborsOfNode (node : option GraphObject) (c : GraphConfig) : list (Member GraphObject) :=
  match node with
  | None => []
  | Some n =>
      map (fun e => if uid_is (go_sourceUid e) (go_uid n)
                    then live_node_at c (go_destinationUid e)
                    else live_node_at c (go_sourceUid e))
        (store_getEdgesOfNode node c)
  end.

(** [nodeIsNeighborTo(node, potentialNeighbor)] for an object
    [potentialNeighbor]: [includes] compares with [===], and neither an
    inherited member nor [undefined] is identical to a graph object. *)
Definition nodeIsNeighborTo (node : option GraphObject) (p : GraphObject) (c : GraphConfig) : bool :=
  existsb (fun x => match x with Own o => obj_same o p | _ => false end)
    (getNeighborsOfNode node c).

(** ** Edge types of a node *)

Inductive Direction := INCOMING | OUTGOING.

Record EdgeTypeEntry := mkEdgeTypeEntry { etype_label : string; etype_direction : Direction }.

(** [nodeTable.labelNames.includes(label)] for some label of the node. *)
Definition table_matches_node (n : GraphObject) (nt : NodeTable) : bool :=
  existsb (fun l => existsb (String.eqb l) (nt_labelNames nt)) (go_labels n).

(** The entries added for one (node table, edge table) pair: the outgoing
    labels, then the incoming ones. *)
Definition edge_types_for (nt : NodeTable) (et : EdgeTable) : list EdgeTypeEntry :=
  (if String.eqb (et_sourceNodeTableName et) (nt_name nt)
   then map (fun l => mkEdgeTypeEntry l OUTGOING) (et_labelNames et) else [])
  ++ (if String.eqb (et_destinationNodeTableName et) (nt_name nt)
      then map (fun l => mkEdgeTypeEntry l INCOMING) (et_labelNames et) else []).

(** [getEdgeTypesOfNode(node)].  [schema] is [this.config.schema] ([None] when
    the config was built with [schemaData: null]).  Every [edgeTypes.add] gets
    a fresh object literal, so the [Set] (compared by identity) keeps every
    entry, and [Array.from] lists them in insertion order. *)
Definition getEdgeTypesOfNode (schema : option RawSchema) (node : option GraphObject)
    : Result (list EdgeTypeEntry) :=
  match node with
  | None => Ok []
  | Some n =>
      match go_kind n with
      | KEdge => Ok []
      | KNode =>
          match schema with
          | None => Throw (TypeError "Cannot read properties of null (reading 'rawSchema')")
          | Some sch =>
              let matchingNodeTables := List.filter (table_matches_node n) (nodeTables sch) in
              Ok (flat_map (fun nt => flat_map (edge_types_for nt) (edgeTables sch))
                    matchingNodeTables)
          end
      end
  end.

(** ** [Schema.getNamesOfTables], [getUniqueLabels], [getPropertiesOfTable],
    [getEdgesOfNode] and [getNodesOfEdges] *)

(** An element [tables[i]] as the loop reads it: [undefined] or [null] (a
    hole, a missing table), on which reading [.name] raises; or a value whose
    [name] is a string, a falsy non-string ([undefined], [null], [0], [false];
    also the [name] of a primitive element) or a truthy non-string (a number,
    an object). *)
Inductive TableName := NoTable | NameString (s : string) | NameFalsy | NameNonString.

(** The digits of a decimal numeral, most significant first. *)
Fixpoint decimal_value (s : string) (acc : N) : option N :=
  match s with
  | EmptyString => Some acc
  | String c s' =>
      let d := N.of_nat (Ascii.nat_of_ascii c) in
      if (48 <=? d)%N && (d <=? 57)%N then decimal_value s' (acc * 10 + (d - 48))%N
      else None
  end.

(** The array index a property key denotes ([ToString(ToUint32(k)) === k] and
    [ToUint32(k) !== 2^32 - 1]): a canonical decimal numeral, without sign or
    leading zero, below [2^32 - 1]. *)
Definition array_index (k : string) : option N :=
  match k with
  | EmptyString => None
  | String c rest =>
      if Nat.eqb (Ascii.nat_of_ascii c) 48 && negb (String.eqb rest "") then None
      else match decimal_value k 0 with
           | Some n => if (n <? 4294967295)%N then Some n else None
           | None => None
           end
  end.

Definition is_array_index (k : string) : bool :=
  match array_index k with Some _ => true | None => false end.

Definition index_value (k : string) : N := default 0%N (array_index k).

Definition index_le (a b : string) : Prop := (index_value a <= index_value b)%N.

#[global] Instance index_le_dec : RelDecision index_le.
Proof. intros a b. unfold index_le. apply N.le_dec. Defined.

(** [names[k] = '']: a new key is created at the end of the creation order, an
    existing key keeps its place.  The inherited [__proto__] accessor ignores a
    string value, so that key is never created. *)
Definition set_name (names : list string) (k : string) : list string :=
  if String.eqb k "__proto__" then names
  else if existsb (String.eqb k) names then names else names ++ [k].

(** [Object.keys(names)] (OrdinaryOwnPropertyKeys): the array-index keys in
    ascending numeric order, then the other keys in creation order. *)
Definition object_keys (names : list string) : list string :=
  merge_sort index_le (List.filter is_array_index names)
  ++ List.filter (fun k => negb (is_array_index k)) names.

(** The [for] loop of [getNamesOfTables]. *)
Fixpoint collect_names (tables : list TableName) (names logs : list string)
    : Result (list string * list string) :=
  match tables with
  | [] => Ok (names, logs)
  | NoTable :: _ => Throw (TypeError "Cannot read properties of undefined (reading 'name')")
  | NameString s :: ts =>
      if String.eqb s "" then collect_names ts names (logs ++ ["name of nodeTable is not declared"])
      else collect_names ts (set_name names s) logs
  | NameFalsy :: ts => collect_names ts names (logs ++ ["name of nodeTable is not declared"])
  | NameNonString :: ts => collect_names ts names (logs ++ ["name of nodeTable is not a string"])
  end.

(** [getNamesOfTables(tables)]: the keys, and the console diagnostics.
    [tables = None] is [undefined] or [null], whose [.length] raises; any other
    value is read as the array-like it is, [Some] of its elements
    [tables[0 .. length - 1]] (none when it has no numeric [length]). *)
Definition getNamesOfTables (rawSchema : option RawSchema) (tables : option (list TableName))
    : Result (list string * list string) :=
  match rawSchema with
  | None => Ok ([], ["No schema found"])
  | Some _ =>
      match tables with
      | None => Throw (TypeError "Cannot read properties of undefined (reading 'length')")
      | Some ts =>
          match collect_names ts [] [] with
          | Ok (names, logs) => Ok (object_keys names, logs)
          | Throw e => Throw e
          end
      end
  end.

(** [b] comes after [a] in [l]. *)
Definition before (l : list string) (a b : string) : Prop :=
  exists l1 l2 l3, l = l1 ++ a :: l2 ++ b :: l3.

Definition named (t : TableName) : bool :=
  match t with NameString s => negb (String.eqb s "") | _ => false end.

(** A table as [getUniqueLabels] inspects it: not an object ([null], a
    primitive), or an object whose [labelNames] is an Array ([Some]) or not. *)
Inductive LabelTable := NotAnObject | TableObject (labelNames : option (list string)).

(** [getUniqueLabels(tables)]: the first label of every table that has one. *)
Fixpoint getUniqueLabels (tables : list LabelTable) : list string :=
  match tables with
  | [] => []
  | TableObject (Some (l :: _)) :: ts => l :: getUniqueLabels ts
  | _ :: ts => getUniqueLabels ts
  end.

Definition node_table_value (t : NodeTable) : LabelTable := TableObject (Some (nt_labelNames t)).

Definition edge_table_value (t : EdgeTable) : LabelTable := TableObject (Some (et_labelNames t)).

(** [getNodeNames()] *)
Definition getNodeNames (sch : RawSchema) : list string :=
  getUniqueLabels (map node_table_value (nodeTables sch)).

(** [getEdgeNames()] *)
Definition getEdgeNames (sch : RawSchema) : list string :=
  getUniqueLabels (map edge_table_value (edgeTables sch)).

Record TableNames := mkTableNames { tn_edges : list string; tn_nodes : list string }.

(** [getTableNames()] *)
Definition getTableNames (sch : RawSchema) : TableNames :=
  mkTableNames (getEdgeNames sch) (getNodeNames sch).

(** [Schema.getDisplayName(table)]: [table.labelNames[0]]. *)
Definition schema_getDisplayName (labelNames : list string) : option string := head labelNames.

(** An entry of [rawSchema.propertyDeclarations]; a missing [type] is [None]. *)
Record PropertyDeclaration := mkPropertyDeclaration {
  pd_name : string;
  pd_type : option string
}.

(** [getPropertyType(name)] inside [getPropertiesOfTable]: the type of the
    first declaration of that name, [undefined] when there is none. *)
Fixpoint getPropertyType (decls : list PropertyDeclaration) (name : string) : option string :=
  match decls with
  | [] => None
  | d :: ds => if String.eqb (pd_name d) name then pd_type d else getPropertyType ds name
  end.

Definition missing_declaration (name : string) : string :=
  "Property Declaration does not contain Property Definition: " ++ name.

(** The loop of [getPropertiesOfTable] over the [propertyDeclarationName]s of
    [table.propertyDefinitions].  An empty type is falsy; assigning a string
    to [properties.__proto__] goes to the inherited accessor, which ignores it. *)
Fixpoint add_properties (decls : list PropertyDeclaration) (defs : list string)
    (properties : gmap string string) (logs : list string) : gmap string string * list string :=
  match defs with
  | [] => (properties, logs)
  | n :: ns =>
      match getPropertyType decls n with
      | Some ty =>
          if String.eqb ty "" then add_properties decls ns properties (logs ++ [missing_declaration n])
          else if String.eqb n "__proto__" then add_properties decls ns properties logs
          else add_properties decls ns (<[n := ty]> properties) logs
      | None => add_properties decls ns properties (logs ++ [missing_declaration n])
      end
  end.

(** [getPropertiesOfTable(table)], with [rawSchema.propertyDeclarations] as
    [decls]: the property map and the console diagnostics. *)
Definition getPropertiesOfTable (decls : list PropertyDeclaration) (propertyDefinitions : list string)
    : gmap string string * list string :=
  add_properties decls propertyDefinitions ∅ [].

(** [Schema.getEdgesOfNode(nodeTable)] *)
Definition schema_getEdgesOfNode (sch : RawSchema) (nodeTable : NodeTable) : list EdgeTable :=
  List.filter (fun et => String.eqb (et_sourceNodeTableName et) (nt_name nodeTable)
                         || String.eqb (et_destinationNodeTableName et) (nt_name nodeTable))
    (edgeTables sch).

Record EdgeEnds := mkEdgeEnds { ends_to : option NodeTable; ends_from : option NodeTable }.

(** The [for] loop of [getNodesOfEdges], with its [break] once both ends are
    set. *)
Fixpoint find_ends (src dst : string) (nts : list NodeTable) (from to : option NodeTable)
    : option NodeTable * option NodeTable :=
  match nts with
  | [] => (from, to)
  | nt :: rest =>
      let from' := if String.eqb src (nt_name nt) then Some nt else from in
      let to' := if String.eqb dst (nt_name nt) then Some nt else to in
      match from', to' with
      | Some _, Some _ => (from', to')
      | _, _ => find_ends src dst rest from' to'
      end
  end.

(** [getNodesOfEdges(edgeTable)]: the result object and the diagnostics. *)
Definition getNodesOfEdges (sch : RawSchema) (edgeTable : EdgeTable) : EdgeEnds * list string :=
  let '(from, to) := find_ends (et_sourceNodeTableName edgeTable)
                       (et_destinationNodeTableName edgeTable) (nodeTables sch) None None in
  (mkEdgeEnds to from,
   match to, from with
   | Some _, Some _ => []
   | _, _ => ["EdgeTable does not have a source or destination node"]
   end).

Lemma In_store_getEdgesOfNode : forall (n e : GraphObject) (c : GraphConfig),
  In e (store_getEdgesOfNode (Some n) c) <->
  In e (getEdges c) /\ (go_sourceUid e = Some (go_uid n) \/ go_destinationUid e = Some (go_uid n)).
Proof.
  intros n e c. simpl. rewrite filter_In. unfold edge_touches_uid, uid_is.
  destruct (go_sourceUid e) as [x|], (go_destinationUid e) as [y|]; simpl;
  rewrite ?orb_true_iff, ?String.eqb_eq; intuition congruence.
Qed.

(** An edge of the current view is among the edges of both of its endpoints;
    every edge reported for a node has that node as an endpoint; a null node
    has no edges. *)
Theorem getEdgesOfNode_endpoints : forall (c : GraphConfig) (e a b : GraphObject),
  (In e (getEdges c) -> go_sourceUid e = Some (go_uid a) -> go_destinationUid e = Some (go_uid b) ->
     In e (store_getEdgesOfNode (Some a) c) /\ In e (store_getEdgesOfNode (Some b) c)) /\
  (In e (store_getEdgesOfNode (Some a) c) ->
     go_sourceUid e = Some (go_uid a) \/ go_destinationUid e = Some (go_uid a)) /\
  store_getEdgesOfNode None c = [].
Proof.
  intros c e a b. split; [|split; [|reflexivity]].
  - intros Hin Hs Hd. rewrite !In_store_getEdgesOfNode. auto.
  - rewrite In_store_getEdgesOfNode. tauto.
Qed.

Lemma In_getNeighborsOfNode : forall (n : GraphObject) (c : GraphConfig) x,
  In x (getNeighborsOfNode (Some n) c) <->
  exists e, In e (store_getEdgesOfNode (Some n) c) /\
    x = (if uid_is (go_sourceUid e) (go_uid n) then live_node_at c (go_destinationUid e)
         else live_node_at c (go_sourceUid e)).
Proof.
  intros n c x. unfold getNeighborsOfNode. rewrite in_map_iff. split.
  - intros (e & <- & He). eauto.
  - intros (e & He & ->). eauto.
Qed.

Lemma nodeIsNeighborTo_true : forall (n p : GraphObject) (c : GraphConfig),
  In (Own p) (getNeighborsOfNode (Some n) c) -> nodeIsNeighborTo (Some n) p c = true.
Proof.
  intros n p c Hin. unfold nodeIsNeighborTo. apply existsb_exists.
  exists (Own p). split; [exact Hin|]. apply Nat.eqb_refl.
Qed.

(** Neighborhood is symmetric: for an edge of the current view from [a] to
    [b], both present in the live map under their uids, each endpoint is a
    neighbor of the other. *)
Theorem nodeIsNeighborTo_symmetric : forall (c : GraphConfig) (e a b : GraphObject),
  In e (getEdges c) ->
  go_sourceUid e = Some (go_uid a) -> go_destinationUid e = Some (go_uid b) ->
  nodes c !! go_uid a = Some a -> nodes c !! go_uid b = Some b ->
  nodeIsNeighborTo (Some a) b c = true /\ nodeIsNeighborTo (Some b) a c = true.
Proof.
  intros c e a b Hin Hs Hd Ha Hb. split; apply nodeIsNeighborTo_true;
    apply In_getNeighborsOfNode; exists e.
  - split; [apply In_store_getEdgesOfNode; auto|].
    rewrite Hs. simpl. rewrite String.eqb_refl. unfold live_node_at, js_get. by rewrite Hd, Hb.
  - split; [apply In_store_getEdgesOfNode; auto|].
    rewrite Hs. simpl. unfold live_node_at, js_get.
    destruct (String.eqb_spec (go_uid a) (go_uid b)) as [Heq|Hne].
    + rewrite Hd, Hb. rewrite Heq in Ha. congruence.
    + by rewrite Ha.
Qed.

Definition sample_view : GraphConfig :=
  mkGraphConfig {[ "1" := person_node; "2" := company_node ]} {[ "edge-1" := works_at_edge ]}
    ∅ ∅ ∅ [] LABEL DEFAULT None None 2 1.

Lemma nodeIsNeighborTo_symmetric_witness :
  (In works_at_edge (getEdges sample_view) /\
   go_sourceUid works_at_edge = Some (go_uid person_node) /\
   go_destinationUid works_at_edge = Some (go_uid company_node) /\
   nodes sample_view !! go_uid person_node = Some person_node /\
   nodes sample_view !! go_uid company_node = Some company_node) /\
  (nodeIsNeighborTo (Some person_node) company_node sample_view = true /\
   nodeIsNeighborTo (Some company_node) person_node sample_view = true).
Proof.
  assert (Hin : In works_at_edge (getEdges sample_view)) by (vm_compute; left; reflexivity).
  assert (Ha : nodes sample_view !! go_uid person_node = Some person_node) by (vm_compute; reflexivity).
  assert (Hb : nodes sample_view !! go_uid company_node = Some company_node) by (vm_compute; reflexivity).
  split; [exact (conj Hin (conj eq_refl (conj eq_refl (conj Ha Hb))))|].
  exact (nodeIsNeighborTo_symmetric sample_view works_at_edge person_node company_node
           Hin eq_refl eq_refl Ha Hb).
Defined.

Lemma table_matches_node_spec : forall (n : GraphObject) (nt : NodeTable),
  table_matches_node n nt = true <-> exists l, In l (go_labels n) /\ In l (nt_labelNames nt).
Proof.
  intros n nt. unfold table_matches_node. rewrite existsb_exists.
  split; intros (l & Hl & H); exists l; split; auto.
  - apply existsb_exists in H as (l' & Hl' & Heq). apply String.eqb_eq in Heq. congruence.
  - apply existsb_exists. exists l. split; [done|]. apply String.eqb_refl.
Qed.

Lemma In_edge_types_for : forall (nt : NodeTable) (et : EdgeTable) (l : string) (d : Direction),
  In (mkEdgeTypeEntry l d) (edge_types_for nt et) <->
  In l (et_labelNames et) /\
  match d with
  | OUTGOING => et_sourceNodeTableName et = nt_name nt
  | INCOMING => et_destinationNodeTableName et = nt_name nt
  end.
Proof.
  intros nt et l d. unfold edge_types_for. rewrite in_app_iff.
  destruct (String.eqb_spec (et_sourceNodeTableName et) (nt_name nt)) as [Hs|Hs];
  destruct (String.eqb_spec (et_destinationNodeTableName et) (nt_name nt)) as [Hd|Hd];
  rewrite ?in_map_iff; simpl; split;
  try (intros [(l' & Heq & Hl)|(l' & Heq & Hl)]; injection Heq as <- <-; auto; fail);
  try (intros [(l' & Heq & Hl)|[]]; injection Heq as <- <-; auto; fail);
  try (intros [[]|(l' & Heq & Hl)]; injection Heq as <- <-; auto; fail);
  try (intros [[]|[]]; fail);
  intros [Hl Hm]; destruct d; try congruence; eauto.
Qed.

(** [getEdgeTypesOfNode] on a node lists [{label, OUTGOING}] exactly when some
    node table sharing a label with the node is the source table of an edge
    table carrying that label, and [{label, INCOMING}] exactly when it is the
    destination table; when the store has no schema it raises. *)
Theorem getEdgeTypesOfNode_entries : forall (n : GraphObject) (l : string) (d : Direction),
  go_kind n = KNode ->
  (exists e, getEdgeTypesOfNode None (Some n) = Throw e) /\
  forall sch : RawSchema,
  match getEdgeTypesOfNode (Some sch) (Some n) with
  | Ok r =>
      In (mkEdgeTypeEntry l d) r <->
      exists nt et, In nt (nodeTables sch) /\
        (exists l', In l' (go_labels n) /\ In l' (nt_labelNames nt)) /\
        In et (edgeTables sch) /\ In l (et_labelNames et) /\
        match d with
        | OUTGOING => et_sourceNodeTableName et = nt_name nt
        | INCOMING => et_destinationNodeTableName et = nt_name nt
        end
  | Throw _ => False
  end.
Proof.
  intros n l d Hk. unfold getEdgeTypesOfNode. rewrite Hk. split; [eauto|].
  intros sch. rewrite in_flat_map. split.
  - intros (nt & Hnt & Hin). apply filter_In in Hnt as [Hnt Hm].
    apply table_matches_node_spec in Hm.
    apply in_flat_map in Hin as (et & Het & Hin). apply In_edge_types_for in Hin as [Hl Hd].
    exists nt, et. auto.
  - intros (nt & et & Hnt & Hm & Het & Hl & Hd). exists nt. split.
    + apply filter_In. split; [done|]. by apply table_matches_node_spec.
    + apply in_flat_map. exists et. split; [done|]. by apply In_edge_types_for.
Qed.

Definition sample_schema : RawSchema :=
  mkRawSchema [mkNodeTable "Person" ["Person"]; mkNodeTable "Company" ["Company"]]
    [mkEdgeTable "WORKS_AT" ["WORKS_AT"] "Person" "Company"].

Lemma getEdgeTypesOfNode_entries_witness :
  go_kind person_node = KNode /\
  ((exists e, getEdgeTypesOfNode None (Some person_node) = Throw e) /\
   match getEdgeTypesOfNode (Some sample_schema) (Some person_node) with
   | Ok r =>
       In (mkEdgeTypeEntry "WORKS_AT" OUTGOING) r <->
       exists nt et, In nt (nodeTables sample_schema) /\
         (exists l', In l' (go_labels person_node) /\ In l' (nt_labelNames nt)) /\
         In et (edgeTables sample_schema) /\ In "WORKS_AT" (et_labelNames et) /\
         et_sourceNodeTableName et = nt_name nt
   | Throw _ => False
   end).
Proof.
  split; [reflexivity|].
  destruct (getEdgeTypesOfNode_entries person_node "WORKS_AT" OUTGOING eq_refl) as [H1 H2].
  split; [exact H1 | exact (H2 sample_schema)].
Defined.

(** [getEdgeTypesOfNode] does not merge repeated entries: the number of
    entries is, summed over the matching node tables and all edge tables, the
    edge table's label count once for a source match and once more for a
    destination match (so a self-loop edge table gives both directions, and
    two matching tables give repeated entries). *)
Theorem getEdgeTypesOfNode_count : forall (sch : RawSchema) (n : GraphObject),
  go_kind n = KNode ->
  getEdgeTypesOfNode (Some sch) (Some n) =
  Ok (flat_map (fun nt => flat_map (edge_types_for nt) (edgeTables sch))
        (List.filter (table_matches_node n) (nodeTables sch))) /\
  match getEdgeTypesOfNode (Some sch) (Some n) with
  | Ok r =>
      length r =
      list_sum (map (fun nt =>
        list_sum (map (fun et =>
          (if String.eqb (et_sourceNodeTableName et) (nt_name nt) then length (et_labelNames et) else 0)
          + (if String.eqb (et_destinationNodeTableName et) (nt_name nt) then length (et_labelNames et) else 0))
          (edgeTables sch)))
        (List.filter (table_matches_node n) (nodeTables sch)))
  | Throw _ => False
  end.
Proof.
  intros sch n Hk. unfold getEdgeTypesOfNode. rewrite Hk. split; [reflexivity|].
  induction (List.filter (table_matches_node n) (nodeTables sch)) as [|nt nts IH]; [reflexivity|].
  simpl. rewrite length_app, IH. f_equal. clear IH.
  induction (edgeTables sch) as [|et ets IH']; [reflexivity|].
  simpl. rewrite length_app, IH'. f_equal. unfold edge_types_for.
  rewrite length_app.
  destruct (String.eqb _ _), (String.eqb _ _); simpl; rewrite ?length_map; lia.
Qed.

Lemma getEdgeTypesOfNode_count_witness :
  go_kind person_node = KNode /\
  (getEdgeTypesOfNode (Some sample_schema) (Some person_node) =
   Ok (flat_map (fun nt => flat_map (edge_types_for nt) (edgeTables sample_schema))
         (List.filter (table_matches_node person_node) (nodeTables sample_schema))) /\
   match getEdgeTypesOfNode (Some sample_schema) (Some person_node) with
   | Ok r =>
       length r =
       list_sum (map (fun nt =>
         list_sum (map (fun et =>
           (if String.eqb (et_sourceNodeTableName et) (nt_name nt) then length (et_labelNames et) else 0)
           + (if String.eqb (et_destinationNodeTableName et) (nt_name nt) then length (et_labelNames et) else 0))
           (edgeTables sample_schema)))
         (List.filter (table_matches_node person_node) (nodeTables sample_schema)))
   | Throw _ => False
   end).
Proof.
  split; [reflexivity|]. exact (getEdgeTypesOfNode_count sample_schema person_node eq_refl).
Defined.

Lemma set_name_spec : forall (names : list string) (s : string),
  (forall k, In k (set_name names s) <-> In k names \/ (k = s /\ s <> "__proto__")) /\
  (NoDup names -> NoDup (set_name names s)) /\
  exists extra, set_name names s = names ++ extra.
Proof.
  intros names s. unfold set_name.
  destruct (String.eqb_spec s "__proto__") as [Hp|Hp].
  { split; [intros k; split; [auto | intros [H|[_ H]]; [done | contradiction]]|].
    split; [auto|]. exists []. by rewrite app_nil_r. }
  destruct (existsb (String.eqb s) names) eqn:He.
  - apply existsb_exists in He as (x & Hx & Heq). apply String.eqb_eq in Heq. subst x.
    split; [intros k; split; [auto | intros [H|[-> _]]; auto]|].
    split; [auto|]. exists []. by rewrite app_nil_r.
  - assert (Hn : ~ In s names).
    { intros Hin. assert (existsb (String.eqb s) names = true) by
        (apply existsb_exists; exists s; split; [done | apply String.eqb_refl]). congruence. }
    split; [|split; [|eauto]].
    + intros k. rewrite in_app_iff. simpl. split; [intros [H|[H|[]]]; [auto | right; auto] |].
      intros [H|[-> _]]; auto.
    + intros Hnd. apply NoDup_app. split; [done|]. split; [|apply NoDup_singleton].
      intros x Hx1 Hx2. apply list_elem_of_singleton in Hx2. subst x.
      apply Hn, list_elem_of_In, Hx1.
Qed.

Lemma collect_names_app : forall (pre post : list TableName) (names logs : list string),
  collect_names (pre ++ post) names logs =
  match collect_names pre names logs with
  | Ok (names', logs') => collect_names post names' logs'
  | Throw e => Throw e
  end.
Proof.
  induction pre as [|t pre IH]; intros post names logs; [reflexivity|].
  destruct t as [|s| |]; simpl; [reflexivity|destruct (String.eqb s "")|..]; apply IH.
Qed.

Lemma collect_names_spec : forall (ts : list TableName) (names logs : list string),
  NoDup names ->
  match collect_names ts names logs with
  | Ok (names', logs') =>
      ~ In NoTable ts /\ NoDup names' /\
      (forall k, In k names' <-> In k names \/ (In (NameString k) ts /\ k <> "" /\ k <> "__proto__")) /\
      (exists extra, names' = names ++ extra) /\
      length logs' = length logs + length (List.filter (fun t => negb (named t)) ts)
  | Throw e =>
      In NoTable ts /\ e = TypeError "Cannot read properties of undefined (reading 'name')"
  end.
Proof.
  induction ts as [|t ts IH]; intros names logs Hnd.
  { simpl. split; [intros []|]. split; [done|]. split; [intros k; split; [auto | intros [H|[[] _]]; done]|].
    split; [exists []; by rewrite app_nil_r | lia]. }
  destruct t as [|s| |]; simpl; [split; [by left | reflexivity]|..].
  - destruct (String.eqb_spec s "") as [Hs|Hs]; simpl.
    + specialize (IH names (logs ++ ["name of nodeTable is not declared"]) Hnd).
      destruct (collect_names ts names _) as [[n' l']|e]; [|destruct IH as [? ->]; by split; [right|]].
      destruct IH as (H0 & H1 & H2 & H3 & H4).
      split; [intros [H|H]; [discriminate | contradiction]|].
      split; [done|]. split.
      * intros k. rewrite H2. split; [intros [H|(H & ? & ?)]; auto|].
        intros [H|([H|H] & ? & ?)]; [auto | congruence | auto].
      * split; [done|]. rewrite H4, length_app. simpl. lia.
    + destruct (set_name_spec names s) as (Hs1 & Hs2 & extra0 & Hs3).
      specialize (IH (set_name names s) logs (Hs2 Hnd)).
      destruct (collect_names ts (set_name names s) logs) as [[n' l']|e];
        [|destruct IH as [? ->]; by split; [right|]].
      destruct IH as (H0 & H1 & H2 & (extra & H3) & H4).
      split; [intros [H|H]; [discriminate | contradiction]|].
      split; [done|]. split.
      * intros k. rewrite H2, Hs1.
        split; [intros [[H|[-> ?]]|(H & ? & ?)]; auto|].
        intros [H|([[= ->]|H] & ? & ?)]; auto.
      * split; [exists (extra0 ++ extra); by rewrite H3, Hs3, app_assoc | done].
  - specialize (IH names (logs ++ ["name of nodeTable is not declared"]) Hnd).
    destruct (collect_names ts names _) as [[n' l']|e]; [|destruct IH as [? ->]; by split; [right|]].
    destruct IH as (H0 & H1 & H2 & H3 & H4).
    split; [intros [H|H]; [discriminate | contradiction]|].
    split; [done|]. split.
    + intros k. rewrite H2. split; [intros [H|(H & ? & ?)]; auto|].
      intros [H|([H|H] & ? & ?)]; [auto | congruence | auto].
    + split; [done|]. rewrite H4, length_app. simpl. lia.
  - specialize (IH names (logs ++ ["name of nodeTable is not a string"]) Hnd).
    destruct (collect_names ts names _) as [[n' l']|e]; [|destruct IH as [? ->]; by split; [right|]].
    destruct IH as (H0 & H1 & H2 & H3 & H4).
    split; [intros [H|H]; [discriminate | contradiction]|].
    split; [done|]. split.
    + intros k. rewrite H2. split; [intros [H|(H & ? & ?)]; auto|].
      intros [H|([H|H] & ? & ?)]; [auto | congruence | auto].
    + split; [done|]. rewrite H4, length_app. simpl. lia.
Qed.

Lemma In_object_keys : forall (names : list string) (k : string),
  In k (object_keys names) <-> In k names.
Proof.
  intros names k. unfold object_keys. rewrite in_app_iff.
  split.
  - intros [H|H].
    + apply (Permutation_in _ (merge_sort_Permutation index_le _)) in H.
      by apply filter_In in H as [? _].
    + by apply filter_In in H as [? _].
  - intros H. destruct (is_array_index k) eqn:Hk.
    + left. apply (Permutation_in _ (Permutation_sym (merge_sort_Permutation index_le _))).
      by apply filter_In.
    + right. apply filter_In. by rewrite Hk.
Qed.

Lemma NoDup_List_filter : forall (f : string -> bool) (l : list string),
  NoDup l -> NoDup (List.filter f l).
Proof.
  intros f l Hnd. apply NoDup_ListNoDup. apply Stdlib.Lists.List.NoDup_filter.
  by apply NoDup_ListNoDup.
Qed.

Lemma NoDup_object_keys : forall (names : list string),
  NoDup names -> NoDup (object_keys names).
Proof.
  intros names Hnd. unfold object_keys. apply NoDup_app. split; [|split].
  - rewrite (merge_sort_Permutation index_le _). by apply NoDup_List_filter.
  - intros x Hx1 Hx2. apply list_elem_of_In in Hx1, Hx2.
    apply (Permutation_in _ (merge_sort_Permutation index_le _)) in Hx1.
    apply filter_In in Hx1 as [_ H1]. apply filter_In in Hx2 as [_ H2].
    rewrite H1 in H2. discriminate.
  - by apply NoDup_List_filter.
Qed.

#[global] Instance index_le_total : Total index_le.
Proof. intros a b. unfold index_le. lia. Qed.

#[global] Instance index_le_trans : Transitive index_le.
Proof. intros a b c. unfold index_le. lia. Qed.

Lemma before_app_l : forall (l l' : list string) (a b : string),
  before l a b -> before (l' ++ l) a b.
Proof.
  intros l l' a b (l1 & l2 & l3 & ->). exists (l' ++ l1), l2, l3. by rewrite app_assoc.
Qed.

Lemma before_app_r : forall (l l' : list string) (a b : string),
  before l a b -> before (l ++ l') a b.
Proof.
  intros l l' a b (l1 & l2 & l3 & ->). exists l1, l2, (l3 ++ l').
  rewrite <- app_assoc. simpl. by rewrite <- app_assoc.
Qed.

Lemma before_split : forall (l l' : list string) (a b : string),
  In a l -> In b l' -> before (l ++ l') a b.
Proof.
  intros l l' a b Ha Hb.
  apply in_split in Ha as (l1 & l2 & ->). apply in_split in Hb as (l3 & l4 & ->).
  exists l1, (l2 ++ l3), l4. rewrite <- app_assoc. simpl. by rewrite <- app_assoc.
Qed.

Lemma before_filter : forall (f : string -> bool) (l : list string) (a b : string),
  before l a b -> f a = true -> f b = true -> before (List.filter f l) a b.
Proof.
  intros f l a b (l1 & l2 & l3 & ->) Ha Hb.
  exists (List.filter f l1), (List.filter f l2), (List.filter f l3).
  rewrite !List.filter_app. simpl. rewrite Ha. simpl. rewrite List.filter_app. simpl. by rewrite Hb.
Qed.

Lemma StronglySorted_before : forall (l : list string) (a b : string),
  StronglySorted index_le l -> In a l -> In b l ->
  (index_value a < index_value b)%N -> before l a b.
Proof.
  induction l as [|x l IH]; intros a b Hs Ha Hb Hlt; [destruct Ha|].
  apply StronglySorted_inv in Hs as [Hs Hx]. rewrite Forall_forall in Hx.
  destruct Ha as [<-|Ha].
  - destruct Hb as [<-|Hb]; [lia|].
    apply in_split in Hb as (l2 & l3 & ->). by exists [], l2, l3.
  - destruct Hb as [<-|Hb].
    + specialize (Hx a (proj2 (list_elem_of_In _ _) Ha)). unfold index_le in Hx. lia.
    + destruct (IH a b Hs Ha Hb Hlt) as (l1 & l2 & l3 & ->). by exists (x :: l1), l2, l3.
Qed.

(** [getNamesOfTables] without a schema returns [] after a diagnostic.  With
    a schema it raises a TypeError when [tables] is [undefined] or [null], or
    when one of its elements is; otherwise it lists each name once, exactly
    the non-empty string names of the tables other than [__proto__] (whose
    assignment goes to the prototype accessor), and logs one diagnostic per
    table with an empty, missing or non-string name. *)
Theorem getNamesOfTables_members : forall (rawSchema : option RawSchema) (tables : option (list TableName)),
  match rawSchema with
  | None => getNamesOfTables rawSchema tables = Ok ([], ["No schema found"])
  | Some _ =>
      (tables = None ->
         getNamesOfTables rawSchema tables =
           Throw (TypeError "Cannot read properties of undefined (reading 'length')")) /\
      (forall ts, tables = Some ts -> In NoTable ts ->
         getNamesOfTables rawSchema tables =
           Throw (TypeError "Cannot read properties of undefined (reading 'name')")) /\
      (forall ts, tables = Some ts -> ~ In NoTable ts ->
         exists keys logs, getNamesOfTables rawSchema tables = Ok (keys, logs) /\
           NoDup keys /\
           (forall k, In k keys <-> In (NameString k) ts /\ k <> "" /\ k <> "__proto__") /\
           length logs = length (List.filter (fun t => negb (named t)) ts))
  end.
Proof.
  intros [sch|] tables; [|reflexivity]. unfold getNamesOfTables.
  split; [intros ->; reflexivity|].
  split; intros ts -> Hts; pose proof (collect_names_spec ts [] [] NoDup_nil_2) as Hspec;
    destruct (collect_names ts [] []) as [[names logs]|e].
  - destruct Hspec as [Hnot _]. contradiction.
  - by destruct Hspec as [_ ->].
  - destruct Hspec as (_ & H1 & H2 & _ & H4).
    exists (object_keys names), logs. split; [reflexivity|].
    split; [by apply NoDup_object_keys|]. split; [|done].
    intros k. rewrite In_object_keys, H2. split; [intros [[]|H]; done | auto].
  - destruct Hspec as [Hin _]. contradiction.
Qed.

(** [getNamesOfTables] does not keep the order of the tables: [Object.keys]
    lists names that are array indices (canonical numerals below [2^32 - 1])
    first, in ascending numeric order, and only then the other names, in the
    order of their first table. *)
Theorem getNamesOfTables_order :
  forall (sch : RawSchema) (tables : list TableName) (keys logs : list string) (k1 k2 : string),
  getNamesOfTables (Some sch) (Some tables) = Ok (keys, logs) ->
  In k1 keys -> In k2 keys ->
  (is_array_index k1 = true -> is_array_index k2 = false -> before keys k1 k2) /\
  (is_array_index k1 = true -> is_array_index k2 = true -> (index_value k1 < index_value k2)%N ->
   before keys k1 k2) /\
  (forall pre post, is_array_index k1 = false -> is_array_index k2 = false -> k1 <> k2 ->
   tables = pre ++ NameString k1 :: post -> ~ In (NameString k2) pre ->
   before keys k1 k2).
Proof.
  intros sch tables keys logs k1 k2 Hr. unfold getNamesOfTables in Hr.
  pose proof (collect_names_spec tables [] [] NoDup_nil_2) as Hspec.
  destruct (collect_names tables [] []) as [[names lg]|e] eqn:Hc; [|discriminate].
  injection Hr as <- _. destruct Hspec as (_ & Hnd & Hmem & _).
  intros Hk1 Hk2. rewrite In_object_keys in Hk1, Hk2. unfold object_keys.
  split; [|split].
  - intros Hi1 Hi2. apply before_split.
    + apply (Permutation_in _ (Permutation_sym (merge_sort_Permutation index_le _))).
      by apply filter_In.
    + apply filter_In. by rewrite Hi2.
  - intros Hi1 Hi2 Hlt. apply before_app_r, StronglySorted_before; [| | |done].
    + apply Sorted_StronglySorted; [apply _|]. apply Sorted_merge_sort. apply _.
    + apply (Permutation_in _ (Permutation_sym (merge_sort_Permutation index_le _))).
      by apply filter_In.
    + apply (Permutation_in _ (Permutation_sym (merge_sort_Permutation index_le _))).
      by apply filter_In.
  - intros pre post Hi1 Hi2 Hne -> Hpre. apply before_app_l.
    apply before_filter; [|by rewrite Hi1|by rewrite Hi2].
    rewrite collect_names_app in Hc.
    pose proof (collect_names_spec pre [] [] NoDup_nil_2) as Hspec1.
    destruct (collect_names pre [] []) as [[n1 l1]|e1]; [|discriminate].
    destruct Hspec1 as (_ & Hnd1 & Hmem1 & _).
    apply Hmem in Hk1 as [[]|(_ & Hk1e & Hk1p)].
    simpl in Hc. rewrite (proj2 (String.eqb_neq _ _) Hk1e) in Hc.
    destruct (set_name_spec n1 k1) as (Hs1 & Hs2 & _).
    pose proof (collect_names_spec post (set_name n1 k1) l1 (Hs2 Hnd1)) as Hspec2.
    rewrite Hc in Hspec2. destruct Hspec2 as (_ & _ & _ & (extra & Hex) & _). subst names.
    assert (Hin1 : In k1 (set_name n1 k1)) by (apply Hs1; auto).
    assert (Hout2 : ~ In k2 (set_name n1 k1)).
    { rewrite Hs1, Hmem1. intros [[[]|(? & _)]|[? _]]; auto. }
    apply in_app_or in Hk2 as [Hk2|Hk2]; [contradiction|].
    by apply before_split.
Qed.

Definition sample_tables : list TableName :=
  [NameString "Person"; NameString "10"; NameString "2"; NameString "Company"].

Lemma getNamesOfTables_order_witness :
  getNamesOfTables (Some sample_schema) (Some sample_tables) = Ok (["2"; "10"; "Person"; "Company"], []) /\
  before ["2"; "10"; "Person"; "Company"] "2" "Person".
Proof.
  assert (Hr : getNamesOfTables (Some sample_schema) (Some sample_tables) =
               Ok (["2"; "10"; "Person"; "Company"], [])) by (vm_compute; reflexivity).
  assert (Hi1 : is_array_index "2" = true) by (vm_compute; reflexivity).
  assert (Hi2 : is_array_index "Person" = false) by (vm_compute; reflexivity).
  split; [exact Hr|].
  exact (proj1 (getNamesOfTables_order sample_schema sample_tables _ _ "2" "Person" Hr
                  (or_introl eq_refl) (or_intror (or_intror (or_introl eq_refl)))) Hi1 Hi2).
Defined.

(** Despite its name, [getUniqueLabels] does not drop repeats: a label occurs
    in the result once for every table (an object with a non-empty Array of
    labels) whose first label it is. *)
Theorem getUniqueLabels_counts : forall (tables : list LabelTable) (l : string),
  count_occ String.string_dec (getUniqueLabels tables) l =
  length (List.filter (fun t => match t with
                                | TableObject (Some (l' :: _)) => String.eqb l' l
                                | _ => false
                                end) tables).
Proof.
  induction tables as [|t ts IH]; intros l; [reflexivity|].
  destruct t as [|[[|l' ls]|]]; simpl; try apply IH.
  destruct (String.string_dec l' l) as [->|Hne].
  - rewrite String.eqb_refl. simpl. by rewrite IH.
  - rewrite (proj2 (String.eqb_neq _ _) Hne). apply IH.
Qed.

Lemma getUniqueLabels_map : forall {T : Type} (labels : T -> list string) (ts : list T),
  getUniqueLabels (map (fun t => TableObject (Some (labels t))) ts) =
  omap (fun t => schema_getDisplayName (labels t)) ts.
Proof.
  intros T labels. induction ts as [|t ts IH]; [reflexivity|].
  simpl. unfold schema_getDisplayName. destruct (labels t); simpl; by rewrite IH.
Qed.

(** [getTableNames] lists the display names ([Schema.getDisplayName]) of the
    node tables and of the edge tables, in table order, skipping the tables
    without labels. *)
Theorem getTableNames_display_names : forall (sch : RawSchema),
  tn_nodes (getTableNames sch) = omap (fun t => schema_getDisplayName (nt_labelNames t)) (nodeTables sch) /\
  tn_edges (getTableNames sch) = omap (fun t => schema_getDisplayName (et_labelNames t)) (edgeTables sch).
Proof.
  intros sch. simpl. unfold getNodeNames, getEdgeNames, node_table_value, edge_table_value.
  split; apply getUniqueLabels_map.
Qed.

Lemma getPropertyType_first : forall (decls : list PropertyDeclaration) (k ty : string),
  getPropertyType decls k = Some ty <->
  exists pre d post, decls = pre ++ d :: post /\ Forall (fun d' => pd_name d' <> k) pre /\
                     pd_name d = k /\ pd_type d = Some ty.
Proof.
  induction decls as [|d ds IH]; intros k ty; simpl.
  { split; [discriminate|]. intros (pre & d & post & Hp & _). by destruct pre. }
  destruct (String.eqb_spec (pd_name d) k) as [Hk|Hk].
  - split.
    + intros Hty. by exists [], d, ds.
    + intros ([|d' pre] & d0 & post & Hp & Hf & Hn & Ht).
      * simpl in Hp. injection Hp as -> ->. done.
      * simpl in Hp. injection Hp as -> ->. apply Forall_cons in Hf as [Hf _]. contradiction.
  - rewrite IH. split.
    + intros (pre & d0 & post & -> & Hf & Hn & Ht). exists (d :: pre), d0, post.
      split; [done|]. split; [by constructor|]. done.
    + intros ([|d' pre] & d0 & post & Hp & Hf & Hn & Ht).
      * simpl in Hp. injection Hp as -> ->. contradiction.
      * simpl in Hp. injection Hp as -> ->. apply Forall_cons in Hf as [_ Hf].
        by exists pre, d0, post.
Qed.

Definition valid_property (decls : list PropertyDeclaration) (k ty : string) : Prop :=
  k <> "__proto__" /\ getPropertyType decls k = Some ty /\ ty <> "".

Lemma add_properties_lookup : forall (decls : list PropertyDeclaration) (defs : list string)
    (props : gmap string string) (logs : list string) (k ty : string),
  (forall k' ty', props !! k' = Some ty' -> valid_property decls k' ty') ->
  (add_properties decls defs props logs).1 !! k = Some ty <->
  props !! k = Some ty \/ (In k defs /\ valid_property decls k ty).
Proof.
  intros decls. induction defs as [|n ns IH]; intros props logs k ty Hinv.
  { simpl. split; [auto | intros [H|[[] _]]; done]. }
  unfold valid_property in *. simpl.
  destruct (getPropertyType decls n) as [t|] eqn:Ht.
  - destruct (String.eqb_spec t "") as [Hte|Hte].
    + rewrite IH by done. split; [intros [H|[H ?]]; auto|].
      intros [H|[[<-|H] (Hp & Hty & Hne)]]; auto. congruence.
    + destruct (String.eqb_spec n "__proto__") as [Hnp|Hnp].
      * rewrite IH by done. split; [intros [H|[H ?]]; auto|].
        intros [H|[[<-|H] (Hp & Hty & Hne)]]; auto. congruence.
      * rewrite IH.
        2:{ intros k' ty'. destruct (String.eq_dec n k') as [<-|Hk].
            - rewrite lookup_insert_eq. intros [= <-]. auto.
            - rewrite lookup_insert_ne by done. apply Hinv. }
        destruct (String.eq_dec n k) as [<-|Hk].
        -- rewrite lookup_insert_eq. split.
           ++ intros [[= <-]|[_ H]]; auto.
           ++ intros [H|[_ (Hp & Hty & Hne)]].
              ** left. destruct (Hinv _ _ H) as (_ & Hty & _). congruence.
              ** left. congruence.
        -- rewrite lookup_insert_ne by done. split.
           ++ intros [H|[H ?]]; auto.
           ++ intros [H|[[Heq|H] ?]]; auto. congruence.
  - rewrite IH by done. split; [intros [H|[H ?]]; auto|].
    intros [H|[[<-|H] (Hp & Hty & Hne)]]; auto. congruence.
Qed.

Lemma add_properties_logs : forall (decls : list PropertyDeclaration) (defs : list string)
    (props : gmap string string) (logs : list string),
  (add_properties decls defs props logs).2 =
  logs ++ map missing_declaration
    (List.filter (fun n => match getPropertyType decls n with
                           | Some ty => String.eqb ty ""
                           | None => true
                           end) defs).
Proof.
  intros decls. induction defs as [|n ns IH]; intros props logs; simpl.
  { by rewrite app_nil_r. }
  destruct (getPropertyType decls n) as [t|]; [destruct (String.eqb t "")|]; simpl;
    [| destruct (String.eqb n "__proto__") |]; rewrite IH; try reflexivity;
    by rewrite <- app_assoc.
Qed.

(** [getPropertiesOfTable] maps a property name [k] to [ty] exactly when [k] is
    declared by one of the table's property definitions, [k] is not
    [__proto__], and the FIRST property declaration named [k] has the
    non-empty type [ty] (later declarations of the same name are never
    consulted); every definition without such a type is reported once. *)
Theorem getPropertiesOfTable_spec : forall (decls : list PropertyDeclaration)
    (propertyDefinitions : list string) (k ty : string),
  ((getPropertiesOfTable decls propertyDefinitions).1 !! k = Some ty <->
   In k propertyDefinitions /\ k <> "__proto__" /\ ty <> "" /\
   exists pre d post, decls = pre ++ d :: post /\ Forall (fun d' => pd_name d' <> k) pre /\
                      pd_name d = k /\ pd_type d = Some ty) /\
  length (getPropertiesOfTable decls propertyDefinitions).2 =
  length (List.filter (fun n => match getPropertyType decls n with
                                | Some t => String.eqb t ""
                                | None => true
                                end) propertyDefinitions).
Proof.
  intros decls defs k ty. unfold getPropertiesOfTable. split.
  - rewrite add_properties_lookup.
    2:{ intros k' ty'. by rewrite lookup_empty. }
    rewrite lookup_empty. unfold valid_property. rewrite getPropertyType_first.
    split; [intros [H|(H & Hp & Hf & Hne)]; [done | auto] | intros (H & Hp & Hne & Hf); auto].
  - rewrite add_properties_logs. simpl. by rewrite length_map.
Qed.

Lemma find_ends_spec : forall (src dst : string) (nts : list NodeTable) (from to : option NodeTable),
  (fst (find_ends src dst nts from to) = from \/
   exists nt, fst (find_ends src dst nts from to) = Some nt /\ In nt nts /\ nt_name nt = src) /\
  (snd (find_ends src dst nts from to) = to \/
   exists nt, snd (find_ends src dst nts from to) = Some nt /\ In nt nts /\ nt_name nt = dst) /\
  (is_Some (fst (find_ends src dst nts from to)) <->
   is_Some from \/ exists nt, In nt nts /\ nt_name nt = src) /\
  (is_Some (snd (find_ends src dst nts from to)) <->
   is_Some to \/ exists nt, In nt nts /\ nt_name nt = dst).
Proof.
  intros src dst. induction nts as [|nt rest IH]; intros from to.
  { simpl. split; [auto|]. split; [auto|].
    split; (split; [auto | intros [H|(? & [] & _)]; done]). }
  simpl.
  destruct (String.eqb_spec src (nt_name nt)) as [Hs|Hs];
  destruct (String.eqb_spec dst (nt_name nt)) as [Hd|Hd].
  - simpl. split; [right; eauto|]. split; [right; eauto|].
    split; (split; [intros _; right; eauto | intros _; eauto]).
  - destruct to as [t|].
    + simpl. split; [right; eauto|]. split; [auto|].
      split; (split; [intros _ | intros _; eauto]); [right; eauto | left; eauto].
    + destruct (IH (Some nt) None) as (H1 & H2 & H3 & H4).
      split; [destruct H1 as [->|(x & -> & ? & ?)]; right; eauto|].
      split; [destruct H2 as [->|(x & -> & ? & ?)]; [left|right]; eauto|].
      split.
      * rewrite H3. split; intros _; [right; eauto | left; eauto].
      * rewrite H4. split; [intros [[? [=]]|(x & ? & ?)]; eauto|].
        intros [[? [=]]|(x & [<-|?] & ?)]; [congruence|eauto].
  - destruct from as [f|].
    + simpl. split; [auto|]. split; [right; eauto|].
      split; (split; [intros _ | intros _; eauto]); [left; eauto | right; eauto].
    + destruct (IH None (Some nt)) as (H1 & H2 & H3 & H4).
      split; [destruct H1 as [->|(x & -> & ? & ?)]; [left|right]; eauto|].
      split; [destruct H2 as [->|(x & -> & ? & ?)]; right; eauto|].
      split.
      * rewrite H3. split; [intros [[? [=]]|(x & ? & ?)]; eauto|].
        intros [[? [=]]|(x & [<-|?] & ?)]; [congruence|eauto].
      * rewrite H4. split; intros _; [right; eauto | left; eauto].
  - destruct (IH from to) as (H1 & H2 & H3 & H4).
    destruct from as [f|], to as [t|].
    { simpl. split; [auto|]. split; [auto|].
      split; (split; [intros _; left; eauto | intros _; eauto]). }
    all: split; [destruct H1 as [->|(x & -> & ? & ?)]; [left|right]; eauto|].
    all: split; [destruct H2 as [->|(x & -> & ? & ?)]; [left|right]; eauto|].
    all: split; [rewrite H3; split; [intros [?|(x & ? & ?)]; eauto|];
                 intros [?|(x & [<-|?] & ?)]; [auto|congruence|eauto]|].
    all: rewrite H4; split; [intros [?|(x & ? & ?)]; eauto|];
         intros [?|(x & [<-|?] & ?)]; [auto|congruence|eauto].
Qed.

Lemma getNodeFromName_Some : forall (sch : RawSchema) (name : string) (t : NodeTable),
  getNodeFromName sch name = Some t -> In t (nodeTables sch) /\ nt_name t = name.
Proof.
  intros sch name t. unfold getNodeFromName.
  destruct (List.filter _ _) as [|x xs] eqn:Hf; [discriminate|]. intros [= <-].
  assert (Hx : In x (List.filter (fun t => String.eqb (nt_name t) name) (nodeTables sch)))
    by (rewrite Hf; left; done).
  apply filter_In in Hx as [Hx Heq]. by apply String.eqb_eq in Heq.
Qed.

Lemma getNodeFromName_is_Some : forall (sch : RawSchema) (name : string),
  is_Some (getNodeFromName sch name) <-> exists nt, In nt (nodeTables sch) /\ nt_name nt = name.
Proof.
  intros sch name. split.
  - intros [t Ht]. apply getNodeFromName_Some in Ht. eauto.
  - intros (nt & Hin & Hn). destruct (getNodeFromName sch name) eqn:Hg; [eauto|].
    apply getNodeFromName_None in Hg.
    exfalso. exact (proj1 (List.Forall_forall _ _) Hg nt Hin Hn).
Qed.

Lemma NoDup_map_names : forall (l : list NodeTable) (x y : NodeTable),
  NoDup (map nt_name l) -> In x l -> In y l -> nt_name x = nt_name y -> x = y.
Proof.
  induction l as [|z l IH]; intros x y Hnd Hx Hy Hxy; [destruct Hx|].
  simpl in Hnd. apply NoDup_cons in Hnd as [Hz Hnd].
  destruct Hx as [<-|Hx], Hy as [<-|Hy]; auto.
  - exfalso. apply Hz, list_elem_of_In, in_map_iff. eauto.
  - exfalso. apply Hz, list_elem_of_In, in_map_iff. eauto.
Qed.

(** [getNodesOfEdges] finds an end exactly when [getNodeFromName] finds a
    node table of that name, each end found is a node table with the edge
    table's source (resp. destination) name, and it logs a diagnostic exactly
    when an end is missing. *)
Theorem getNodesOfEdges_found : forall (sch : RawSchema) (et : EdgeTable),
  (is_Some (ends_from (getNodesOfEdges sch et).1) <->
   is_Some (getNodeFromName sch (et_sourceNodeTableName et))) /\
  (is_Some (ends_to (getNodesOfEdges sch et).1) <->
   is_Some (getNodeFromName sch (et_destinationNodeTableName et))) /\
  (forall t, ends_from (getNodesOfEdges sch et).1 = Some t ->
             In t (nodeTables sch) /\ nt_name t = et_sourceNodeTableName et) /\
  (forall t, ends_to (getNodesOfEdges sch et).1 = Some t ->
             In t (nodeTables sch) /\ nt_name t = et_destinationNodeTableName et) /\
  ((getNodesOfEdges sch et).2 = [] <->
   is_Some (ends_from (getNodesOfEdges sch et).1) /\ is_Some (ends_to (getNodesOfEdges sch et).1)).
Proof.
  intros sch et. unfold getNodesOfEdges.
  destruct (find_ends_spec (et_sourceNodeTableName et) (et_destinationNodeTableName et)
              (nodeTables sch) None None) as (H1 & H2 & H3 & H4).
  destruct (find_ends _ _ _ _ _) as [f t]. simpl in *.
  rewrite !getNodeFromName_is_Some.
  split; [rewrite H3; split; [intros [[? [=]]|?]|]; auto|].
  split; [rewrite H4; split; [intros [[? [=]]|?]|]; auto|].
  split; [intros x Hx; destruct H1 as [->|(y & Hy & ? & ?)]; [discriminate|rewrite Hy in Hx; injection Hx as <-; auto]|].
  split; [intros x Hx; destruct H2 as [->|(y & Hy & ? & ?)]; [discriminate|rewrite Hy in Hx; injection Hx as <-; auto]|].
  destruct f, t; simpl; split; try done; intros [[? ?] [? ?]]; discriminate.
Qed.

(** When node table names are unique, the ends [getNodesOfEdges] reports are
    the tables [getNodeFromName] finds for the source and destination names. *)
Theorem getNodesOfEdges_unique_names : forall (sch : RawSchema) (et : EdgeTable),
  NoDup (map nt_name (nodeTables sch)) ->
  ends_from (getNodesOfEdges sch et).1 = getNodeFromName sch (et_sourceNodeTableName et) /\
  ends_to (getNodesOfEdges sch et).1 = getNodeFromName sch (et_destinationNodeTableName et).
Proof.
  intros sch et Hnd.
  destruct (getNodesOfEdges_found sch et) as (H1 & H2 & H3 & H4 & _).
  split.
  - destruct (ends_from _) as [x|] eqn:Hx, (getNodeFromName sch (et_sourceNodeTableName et)) as [y|] eqn:Hy.
    + f_equal. destruct (H3 x eq_refl) as [Hxi Hxn].
      destruct (getNodeFromName_Some _ _ _ Hy) as [Hyi Hyn].
      apply (NoDup_map_names _ _ _ Hnd Hxi Hyi). congruence.
    + exfalso. destruct (proj1 H1 (mk_is_Some _ _ eq_refl)). discriminate.
    + exfalso. destruct (proj2 H1 (mk_is_Some _ _ eq_refl)). discriminate.
    + done.
  - destruct (ends_to _) as [x|] eqn:Hx, (getNodeFromName sch (et_destinationNodeTableName et)) as [y|] eqn:Hy.
    + f_equal. destruct (H4 x eq_refl) as [Hxi Hxn].
      destruct (getNodeFromName_Some _ _ _ Hy) as [Hyi Hyn].
      apply (NoDup_map_names _ _ _ Hnd Hxi Hyi). congruence.
    + exfalso. destruct (proj1 H2 (mk_is_Some _ _ eq_refl)). discriminate.
    + exfalso. destruct (proj2 H2 (mk_is_Some _ _ eq_refl)). discriminate.
    + done.
Qed.

Lemma head_snoc : forall (l : list NodeTable) (x : NodeTable),
  head (l ++ [x]) = match head l with Some y => Some y | None => Some x end.
Proof. intros [|y l] x; reflexivity. Qed.

Lemma find_ends_no_destination : forall (src dst : string) (nts : list NodeTable) (from : option NodeTable),
  Forall (fun t => nt_name t <> dst) nts ->
  find_ends src dst nts from None =
  (match head (rev (List.filter (fun t => String.eqb (nt_name t) src) nts)) with
   | Some t => Some t
   | None => from
   end, None).
Proof.
  intros src dst. induction nts as [|nt rest IH]; intros from Hf; [reflexivity|].
  apply Forall_cons in Hf as [Hnt Hf]. simpl.
  rewrite (proj2 (String.eqb_neq dst (nt_name nt)) (not_eq_sym Hnt)).
  destruct (String.eqb_spec src (nt_name nt)) as [->|Hs].
  - rewrite !String.eqb_refl. rewrite IH by done. simpl. rewrite head_snoc. by destruct (head _).
  - rewrite (proj2 (String.eqb_neq (nt_name nt) src) (not_eq_sym Hs)).
    destruct from; rewrite IH by done; reflexivity.
Qed.

(** Without a table for the destination, the loop never breaks, so with
    repeated source names [getNodesOfEdges] reports the LAST table of the
    source name as [from], where [getNodeFromName] gives the first. *)
Theorem getNodesOfEdges_missing_destination : forall (sch : RawSchema) (et : EdgeTable),
  getNodeFromName sch (et_destinationNodeTableName et) = None ->
  ends_from (getNodesOfEdges sch et).1 =
    head (rev (List.filter (fun t => String.eqb (nt_name t) (et_sourceNodeTableName et)) (nodeTables sch))) /\
  ends_to (getNodesOfEdges sch et).1 = None /\
  (getNodesOfEdges sch et).2 = ["EdgeTable does not have a source or destination node"].
Proof.
  intros sch et Hd. apply getNodeFromName_None in Hd.
  unfold getNodesOfEdges. rewrite find_ends_no_destination by done.
  simpl. split; [by destruct (head (rev _))|]. split; reflexivity.
Qed.

(** Every edge table [Schema.getEdgesOfNode] returns for a node table has that
    table as one of the ends [getNodesOfEdges] reports, when node table names
    are unique. *)
Theorem getEdgesOfNode_getNodesOfEdges : forall (sch : RawSchema) (nt : NodeTable) (et : EdgeTable),
  NoDup (map nt_name (nodeTables sch)) -> In nt (nodeTables sch) ->
  In et (schema_getEdgesOfNode sch nt) ->
  ends_from (getNodesOfEdges sch et).1 = Some nt \/ ends_to (getNodesOfEdges sch et).1 = Some nt.
Proof.
  intros sch nt et Hnd Hnt Het.
  apply filter_In in Het as [_ Het]. apply orb_true_iff in Het.
  destruct (getNodesOfEdges_unique_names sch et Hnd) as [-> ->].
  assert (Hg : forall name, nt_name nt = name -> getNodeFromName sch name = Some nt).
  { intros name Hn. destruct (getNodeFromName sch name) as [y|] eqn:Hy.
    - destruct (getNodeFromName_Some _ _ _ Hy) as [Hyi Hyn]. f_equal.
      apply (NoDup_map_names _ _ _ Hnd Hyi Hnt). congruence.
    - apply getNodeFromName_None in Hy.
      exfalso. exact (proj1 (List.Forall_forall _ _) Hy nt Hnt Hn). }
  destruct Het as [Het|Het]; apply String.eqb_eq in Het; [left|right]; by apply Hg.
Qed.

(** The store's [getEdgeTypesOfNode] only draws on the edge tables
    [Schema.getEdgesOfNode] returns for the node tables matching the node. *)
Theorem getEdgeTypesOfNode_via_schema_edges : forall (sch : RawSchema) (n : GraphObject),
  go_kind n = KNode ->
  getEdgeTypesOfNode (Some sch) (Some n) =
  Ok (flat_map (fun nt => flat_map (edge_types_for nt) (schema_getEdgesOfNode sch nt))
        (List.filter (table_matches_node n) (nodeTables sch))).
Proof.
  intros sch n Hk. unfold getEdgeTypesOfNode. rewrite Hk. f_equal.
  apply flat_map_ext. intros nt. unfold schema_getEdgesOfNode.
  induction (edgeTables sch) as [|et ets IH]; [reflexivity|].
  simpl. rewrite IH.
  destruct (String.eqb (et_sourceNodeTableName et) (nt_name nt)) eqn:E1,
           (String.eqb (et_destinationNodeTableName et) (nt_name nt)) eqn:E2;
    simpl; try reflexivity.
  unfold edge_types_for at 1. by rewrite E1, E2.
Qed.

Definition works_at_table : EdgeTable := mkEdgeTable "WORKS_AT" ["WORKS_AT"] "Person" "Company".

Lemma getNodesOfEdges_unique_names_witness :
  NoDup (map nt_name (nodeTables sample_schema)) /\
  ends_from (getNodesOfEdges sample_schema works_at_table).1 =
    getNodeFromName sample_schema (et_sourceNodeTableName works_at_table) /\
  ends_to (getNodesOfEdges sample_schema works_at_table).1 =
    getNodeFromName sample_schema (et_destinationNodeTableName works_at_table).
Proof.
  assert (Hnd : NoDup (map nt_name (nodeTables sample_schema))) by (apply (bool_decide_unpack _); vm_compute; exact I).
  split; [exact Hnd|]. exact (getNodesOfEdges_unique_names sample_schema works_at_table Hnd).
Defined.

(** Two node tables named "Person" and no table for the destination. *)
Definition duplicate_person_schema : RawSchema :=
  mkRawSchema [mkNodeTable "Person" ["Person"]; mkNodeTable "Person" ["Employee"]] [works_at_table].

Lemma getNodesOfEdges_missing_destination_witness :
  getNodeFromName duplicate_person_schema (et_destinationNodeTableName works_at_table) = None /\
  ends_from (getNodesOfEdges duplicate_person_schema works_at_table).1 =
    Some (mkNodeTable "Person" ["Employee"]) /\
  getNodeFromName duplicate_person_schema (et_sourceNodeTableName works_at_table) =
    Some (mkNodeTable "Person" ["Person"]).
Proof.
  assert (Hd : getNodeFromName duplicate_person_schema (et_destinationNodeTableName works_at_table) = None)
    by (vm_compute; reflexivity).
  split; [exact Hd|]. split; [|vm_compute; reflexivity].
  rewrite (proj1 (getNodesOfEdges_missing_destination duplicate_person_schema works_at_table Hd)).
  vm_compute. reflexivity.
Defined.

Lemma getEdgesOfNode_getNodesOfEdges_witness :
  NoDup (map nt_name (nodeTables sample_schema)) /\
  In (mkNodeTable "Company" ["Company"]) (nodeTables sample_schema) /\
  In works_at_table (schema_getEdgesOfNode sample_schema (mkNodeTable "Company" ["Company"])) /\
  (ends_from (getNodesOfEdges sample_schema works_at_table).1 = Some (mkNodeTable "Company" ["Company"]) \/
   ends_to (getNodesOfEdges sample_schema works_at_table).1 = Some (mkNodeTable "Company" ["Company"])).
Proof.
  assert (Hnd : NoDup (map nt_name (nodeTables sample_schema))) by (apply (bool_decide_unpack _); vm_compute; exact I).
  assert (Hnt : In (mkNodeTable "Company" ["Company"]) (nodeTables sample_schema))
    by (vm_compute; auto).
  assert (Het : In works_at_table (schema_getEdgesOfNode sample_schema (mkNodeTable "Company" ["Company"])))
    by (vm_compute; auto).
  split; [exact Hnd|]. split; [exact Hnt|]. split; [exact Het|].
  exact (getEdgesOfNode_getNodesOfEdges sample_schema _ works_at_table Hnd Hnt Het).
Defined.

Lemma getEdgeTypesOfNode_via_schema_edges_witness :
  go_kind person_node = KNode /\
  getEdgeTypesOfNode (Some sample_schema) (Some person_node) =
  Ok (flat_map (fun nt => flat_map (edge_types_for nt) (schema_getEdgesOfNode sample_schema nt))
        (List.filter (table_matches_node person_node) (nodeTables sample_schema))).
Proof.
  split; [reflexivity|]. exact (getEdgeTypesOfNode_via_schema_edges sample_schema person_node eq_refl).
Defined.

Lemma getEdges_set_selected : forall (o : option GraphObject) (c : GraphConfig),
  getEdges (set_selectedGraphObject o c) = getEdges c.
Proof. reflexivity. Qed.

Lemma getEdges_set_focused : forall (o : option GraphObject) (c : GraphConfig),
  getEdges (set_focusedGraphObject o c) = getEdges c.
Proof. reflexivity. Qed.

(** After [setViewMode] switches to another mode, no edge is highlighted:
    [getEdgeDesign] gives the default style for every edge. *)
Theorem setViewMode_clears_edge_styles : forall (m : ViewMode) (s : GraphStore) (e : GraphObject),
  m <> viewMode (config s) ->
  getEdgeDesign e (config (setViewMode m s)) = StyleDefault.
Proof.
  intros m s e Hne. unfold setViewMode. rewrite decide_False by exact Hne. reflexivity.
Qed.

Lemma setViewMode_clears_edge_styles_witness :
  TABLE <> viewMode (config (store_of sample_view)) /\
  getEdgeDesign works_at_edge (config (setViewMode TABLE (setSelectedObject (Some person_node)
    (store_of sample_view)))) = StyleDefault.
Proof.
  assert (Hne : TABLE <> viewMode (config (store_of sample_view))) by discriminate.
  assert (Hne' : TABLE <> viewMode (config (setSelectedObject (Some person_node) (store_of sample_view))))
    by discriminate.
  split; [exact Hne|].
  exact (setViewMode_clears_edge_styles TABLE _ works_at_edge Hne').
Defined.

(** With an object selected, the selected edge itself is styled "selected",
    and any other edge on view is "focused" exactly when [getEdgesOfNode]
    lists it for the selection, "default" otherwise. *)
Theorem setSelectedObject_edge_styles : forall (s : GraphStore) (n e : GraphObject),
  In e (getEdges (config s)) ->
  (obj_same e n = true ->
   getEdgeDesign e (config (setSelectedObject (Some n) s)) = StyleSelected) /\
  (obj_same e n = false ->
   (getEdgeDesign e (config (setSelectedObject (Some n) s)) = StyleFocused <->
    In e (store_getEdgesOfNode (Some n) (config (setSelectedObject (Some n) s)))) /\
   (getEdgeDesign e (config (setSelectedObject (Some n) s)) = StyleDefault <->
    ~ In e (store_getEdgesOfNode (Some n) (config (setSelectedObject (Some n) s))))).
Proof.
  intros s n e Hin. simpl. rewrite getEdges_set_selected.
  unfold getEdgeDesign, edgeIsConnectedToSelectedNode. simpl.
  rewrite filter_In. unfold edge_touches_uid.
  split; [intros ->; reflexivity|]. intros ->. simpl.
  destruct (uid_is (go_sourceUid e) (go_uid n) || uid_is (go_destinationUid e) (go_uid n)).
  - split; split; intros H; try done; exfalso; apply H; auto.
  - split; split; intros H; try done; [destruct H as [_ H]; discriminate | intros [_ H']; discriminate].
Qed.

Lemma setSelectedObject_edge_styles_witness :
  In works_at_edge (getEdges (config (store_of sample_view))) /\
  (getEdgeDesign works_at_edge (config (setSelectedObject (Some company_node) (store_of sample_view)))
     = StyleFocused <->
   In works_at_edge (store_getEdgesOfNode (Some company_node)
     (config (setSelectedObject (Some company_node) (store_of sample_view))))).
Proof.
  assert (Hin : In works_at_edge (getEdges (config (store_of sample_view)))) by (vm_compute; left; reflexivity).
  split; [exact Hin|].
  exact (proj1 (proj2 (setSelectedObject_edge_styles (store_of sample_view) company_node works_at_edge Hin)
                  eq_refl)).
Defined.

(** With nothing selected, focusing an object styles an edge on view
    "focused" exactly when it is the focused object or [getEdgesOfNode] lists
    it for the focused object; no edge is styled "selected". *)
Theorem setFocusedObject_edge_styles : forall (s : GraphStore) (n e : GraphObject),
  selectedGraphObject (config s) = None -> In e (getEdges (config s)) ->
  (getEdgeDesign e (config (setFocusedObject (Some n) s)) = StyleFocused <->
   obj_same e n = true \/ In e (store_getEdgesOfNode (Some n) (config (setFocusedObject (Some n) s)))) /\
  getEdgeDesign e (config (setFocusedObject (Some n) s)) <> StyleSelected.
Proof.
  intros s n e Hsel Hin. simpl. rewrite getEdges_set_focused.
  unfold getEdgeDesign, edgeIsConnectedToSelectedNode, edgeIsConnectedToFocusedNode. simpl.
  rewrite Hsel. simpl. rewrite filter_In. unfold edge_touches_uid.
  destruct (obj_same e n); simpl; [split; [split; auto | discriminate]|].
  rewrite ?orb_false_r.
  destruct (uid_is (go_sourceUid e) (go_uid n) || uid_is (go_destinationUid e) (go_uid n)); simpl.
  - split; [split; auto | discriminate].
  - split; [|discriminate]. split; [discriminate|]. intros [H|[_ H]]; discriminate.
Qed.

Lemma setFocusedObject_edge_styles_witness :
  selectedGraphObject (config (store_of sample_view)) = None /\
  In works_at_edge (getEdges (config (store_of sample_view))) /\
  getEdgeDesign works_at_edge (config (setFocusedObject (Some person_node) (store_of sample_view)))
    <> StyleSelected.
Proof.
  assert (Hin : In works_at_edge (getEdges (config (store_of sample_view)))) by (vm_compute; left; reflexivity).
  split; [reflexivity|]. split; [exact Hin|].
  exact (proj2 (setFocusedObject_edge_styles (store_of sample_view) person_node works_at_edge
                  eq_refl Hin)).
Defined.

Lemma first_index_unique : forall (l : list (option Z)) (x : option Z) (a b : nat),
  l !! a = Some x -> (forall j, j < a -> l !! j <> Some x) ->
  l !! b = Some x -> (forall j, j < b -> l !! j <> Some x) -> a = b.
Proof.
  intros l x a b Ha Hfa Hb Hfb.
  destruct (Nat.lt_trichotomy a b) as [H|[H|H]]; [|done|].
  - exfalso. exact (Hfb a H Ha).
  - exfalso. exact (Hfa b H Hb).
Qed.

Lemma reserve_neighborhood_extends : forall (nb : option Z) (reserved : list (option Z)),
  exists extra, reserve_neighborhood nb reserved = reserved ++ extra.
Proof.
  intros nb reserved. unfold reserve_neighborhood.
  case_bool_decide; [exists []; by rewrite app_nil_r | eauto].
Qed.

(** The neighborhood ids recorded in [reservedColorsByNeighborhood] stay
    distinct: a lookup never records an id twice. *)
Theorem getColorForNodeByNeighborhood_NoDup : forall (n : GraphObject) (s s' : GraphStore) (col : option string),
  NoDup (reservedColorsByNeighborhood s) ->
  getColorForNodeByNeighborhood (Some n) s = Ok (s', col) ->
  NoDup (reservedColorsByNeighborhood s').
Proof.
  intros n s s' col Hnd Hres.
  destruct (getColorForNodeByNeighborhood_spec n s) as (s1 & slot & Hr & _ & _ & _ & Hrs & _).
  rewrite Hres in Hr. injection Hr as <- _. rewrite Hrs. unfold reserve_neighborhood.
  case_bool_decide as Hin; [done|].
  apply NoDup_app. split; [done|]. split; [|apply NoDup_singleton].
  intros x Hx Hx'. apply list_elem_of_singleton in Hx'. subst x. contradiction.
Qed.

Definition neighborhood_store : GraphStore := store_of (empty_config DEFAULT NEIGHBORHOOD).

Definition after_person : GraphStore :=
  match getColorForNodeByNeighborhood (Some person_node) neighborhood_store with
  | Ok (s, _) => s
  | Throw _ => neighborhood_store
  end.

Lemma getColorForNodeByNeighborhood_NoDup_witness :
  NoDup (reservedColorsByNeighborhood neighborhood_store) /\
  getColorForNodeByNeighborhood (Some person_node) neighborhood_store = Ok (after_person, Some "#FF0000") /\
  NoDup (reservedColorsByNeighborhood after_person).
Proof.
  assert (Hnd : NoDup (reservedColorsByNeighborhood neighborhood_store)) by (vm_compute; constructor).
  assert (Hc : getColorForNodeByNeighborhood (Some person_node) neighborhood_store =
               Ok (after_person, Some "#FF0000")) by (vm_compute; reflexivity).
  split; [exact Hnd|]. split; [exact Hc|].
  exact (getColorForNodeByNeighborhood_NoDup person_node neighborhood_store after_person _ Hnd Hc).
Defined.

(** A neighborhood keeps its color: once a lookup has given [col] for a node,
    a later lookup for the same node on any store whose reserved list extends
    the one left by the first lookup, with the same palette, gives [col] again
    and records nothing new. *)
Theorem getColorForNodeByNeighborhood_stable : forall (n : GraphObject) (s s1 s2 : GraphStore)
    (col : option string) (extra : list (option Z)),
  getColorForNodeByNeighborhood (Some n) s = Ok (s1, col) ->
  reservedColorsByNeighborhood s2 = reservedColorsByNeighborhood s1 ++ extra ->
  colorPalette (config s2) = colorPalette (config s1) ->
  exists s2', getColorForNodeByNeighborhood (Some n) s2 = Ok (s2', col) /\
              reservedColorsByNeighborhood s2' = reservedColorsByNeighborhood s2.
Proof.
  intros n s s1 s2 col extra H1 Hext Hpal.
  destruct (getColorForNodeByNeighborhood_spec n s)
    as (s1' & slot1 & Hr1 & Hc1 & _ & _ & Hrs1 & Hat1 & Hf1 & _).
  rewrite H1 in Hr1. injection Hr1 as <- Hcol. rewrite <- Hrs1 in Hat1, Hf1.
  destruct (getColorForNodeByNeighborhood_spec n s2)
    as (s2' & slot2 & Hr2 & _ & _ & _ & Hrs2 & Hat2 & Hf2 & _).
  assert (Hlt1 : slot1 < length (reservedColorsByNeighborhood s1))
    by (apply lookup_lt_is_Some; eauto).
  assert (Hin : go_neighborhood n ∈ reservedColorsByNeighborhood s2).
  { rewrite Hext. apply elem_of_app. left. apply list_elem_of_lookup. eauto. }
  assert (Hres : reserve_neighborhood (go_neighborhood n) (reservedColorsByNeighborhood s2) =
                 reservedColorsByNeighborhood s2)
    by (unfold reserve_neighborhood; by rewrite bool_decide_eq_true_2).
  rewrite Hres in Hrs2, Hat2, Hf2.
  assert (Hs : slot1 = slot2).
  { apply (first_index_unique (reservedColorsByNeighborhood s2) (go_neighborhood n)); [| |done|done].
    - rewrite Hext, lookup_app_l by done. done.
    - intros j Hj. rewrite Hext, lookup_app_l by lia. by apply Hf1. }
  subst slot2. exists s2'. split; [|done].
  rewrite Hr2, Hcol, Hpal, Hc1. reflexivity.
Qed.

Definition after_company : GraphStore :=
  match getColorForNodeByNeighborhood (Some company_node) after_person with
  | Ok (s, _) => s
  | Throw _ => after_person
  end.

Lemma getColorForNodeByNeighborhood_stable_witness :
  getColorForNodeByNeighborhood (Some person_node) neighborhood_store = Ok (after_person, Some "#FF0000") /\
  exists s2', getColorForNodeByNeighborhood (Some person_node) after_company = Ok (s2', Some "#FF0000") /\
              reservedColorsByNeighborhood s2' = reservedColorsByNeighborhood after_company.
Proof.
  assert (Hc : getColorForNodeByNeighborhood (Some person_node) neighborhood_store =
               Ok (after_person, Some "#FF0000")) by (vm_compute; reflexivity).
  assert (Hext : reservedColorsByNeighborhood after_company =
                 reservedColorsByNeighborhood after_person ++ [Some 2%Z]) by (vm_compute; reflexivity).
  assert (Hpal : colorPalette (config after_company) = colorPalette (config after_person))
    by (vm_compute; reflexivity).
  split; [exact Hc|].
  exact (getColorForNodeByNeighborhood_stable person_node neighborhood_store after_person after_company
           _ _ Hc Hext Hpal).
Defined.

(** Two consecutive lookups for nodes of different neighborhoods give
    different colors, as long as the palette has no repeated color and is at
    least as long as the reserved list. *)
Theorem getColorForNodeByNeighborhood_distinct : forall (n1 n2 : GraphObject) (s s1 s2 : GraphStore)
    (c1 c2 : option string),
  getColorForNodeByNeighborhood (Some n1) s = Ok (s1, c1) ->
  getColorForNodeByNeighborhood (Some n2) s1 = Ok (s2, c2) ->
  go_neighborhood n1 <> go_neighborhood n2 ->
  NoDup (colorPalette (config s)) ->
  length (reservedColorsByNeighborhood s2) <= length (colorPalette (config s)) ->
  c1 <> c2.
Proof.
  intros n1 n2 s s1 s2 c1 c2 H1 H2 Hnb Hpal Hlen.
  destruct (getColorForNodeByNeighborhood_spec n1 s)
    as (s1' & slot1 & Hr1 & Hc1 & _ & _ & Hrs1 & Hat1 & _ & _).
  rewrite H1 in Hr1. injection Hr1 as <- Hcol1. rewrite <- Hrs1 in Hat1.
  destruct (getColorForNodeByNeighborhood_spec n2 s1)
    as (s2' & slot2 & Hr2 & Hc2 & _ & _ & Hrs2 & Hat2 & _ & _).
  rewrite H2 in Hr2. injection Hr2 as <- Hcol2. rewrite <- Hrs2 in Hat2.
  rewrite Hc1 in Hcol2.
  destruct (reserve_neighborhood_extends (go_neighborhood n2) (reservedColorsByNeighborhood s1))
    as [extra Hext]. rewrite <- Hrs2 in Hext.
  assert (Hlt1 : slot1 < length (reservedColorsByNeighborhood s1))
    by (apply lookup_lt_is_Some; eauto).
  assert (Hlt2 : slot2 < length (reservedColorsByNeighborhood s2))
    by (apply lookup_lt_is_Some; eauto).
  assert (Hlen1 : length (reservedColorsByNeighborhood s1) <= length (reservedColorsByNeighborhood s2))
    by (rewrite Hext, length_app; lia).
  assert (Hat1' : reservedColorsByNeighborhood s2 !! slot1 = Some (go_neighborhood n1))
    by (rewrite Hext, lookup_app_l by done; done).
  assert (Hne : slot1 <> slot2) by (intros ->; congruence).
  rewrite decide_True in Hcol1 by lia. rewrite decide_True in Hcol2 by lia.
  subst c1 c2.
  destruct (lookup_lt_is_Some_2 (colorPalette (config s)) slot1) as [x1 Hx1]; [lia|].
  destruct (lookup_lt_is_Some_2 (colorPalette (config s)) slot2) as [x2 Hx2]; [lia|].
  rewrite Hx1, Hx2. intros [= <-].
  apply Hne. exact (NoDup_lookup _ _ _ _ Hpal Hx1 Hx2).
Qed.

Lemma getColorForNodeByNeighborhood_distinct_witness :
  getColorForNodeByNeighborhood (Some person_node) neighborhood_store = Ok (after_person, Some "#FF0000") /\
  getColorForNodeByNeighborhood (Some company_node) after_person = Ok (after_company, Some "#00FF00") /\
  Some "#FF0000" <> Some "#00FF00".
Proof.
  assert (Hc1 : getColorForNodeByNeighborhood (Some person_node) neighborhood_store =
                Ok (after_person, Some "#FF0000")) by (vm_compute; reflexivity).
  assert (Hc2 : getColorForNodeByNeighborhood (Some company_node) after_person =
                Ok (after_company, Some "#00FF00")) by (vm_compute; reflexivity).
  assert (Hnd : NoDup (colorPalette (config neighborhood_store)))
    by (apply (bool_decide_unpack _); vm_compute; exact I).
  assert (Hlen : length (reservedColorsByNeighborhood after_company) <=
                 length (colorPalette (config neighborhood_store))) by (vm_compute; lia).
  split; [exact Hc1|]. split; [exact Hc2|].
  exact (getColorForNodeByNeighborhood_distinct person_node company_node neighborhood_store
           after_person after_company _ _ Hc1 Hc2 ltac:(discriminate) Hnd Hlen).
Defined.

(** A callback registered for [FOCUS_OBJECT] is called by the next
    [setFocusedObject], after the callbacks registered before it and with the
    new focus; registering a callback again adds a second call (the listener
    array is not de-duplicated); the other event kinds keep their listeners. *)
Theorem addEventListener_then_setFocusedObject : forall (cb : nat) (s s1 : GraphStore) (o : option GraphObject),
  addEventListener (Registered FOCUS_OBJECT) cb s = Ok s1 ->
  calls (setFocusedObject o s1) =
    calls s ++ map (fun c => (c, PFocus o)) (eventListeners s FOCUS_OBJECT) ++ [(cb, PFocus o)] /\
  (forall k, k <> FOCUS_OBJECT -> eventListeners s1 k = eventListeners s k).
Proof.
  intros cb s s1 o H. injection H as <-. split.
  - simpl. by rewrite map_app.
  - intros k Hk. simpl. by destruct k; [|contradiction|..].
Qed.

Lemma addEventListener_then_setFocusedObject_witness :
  addEventListener (Registered FOCUS_OBJECT) 7 (store_of sample_view) =
    Ok (mkGraphStore sample_view [] (fun k => if EventKind_eqb k FOCUS_OBJECT then [7] else []) [] []) /\
  calls (setFocusedObject (Some person_node)
           (mkGraphStore sample_view [] (fun k => if EventKind_eqb k FOCUS_OBJECT then [7] else []) [] [])) =
    [(7, PFocus (Some person_node))].
Proof.
  assert (H : addEventListener (Registered FOCUS_OBJECT) 7 (store_of sample_view) =
    Ok (mkGraphStore sample_view [] (fun k => if EventKind_eqb k FOCUS_OBJECT then [7] else []) [] []))
    by reflexivity.
  split; [exact H|].
  exact (proj1 (addEventListener_then_setFocusedObject 7 (store_of sample_view) _ (Some person_node) H)).
Defined.


(** ** Color dispatch with inherited labels *)

(** [getColorForNode] dispatches on [colorScheme].  Under [NEIGHBORHOOD] the
    color is the palette entry at the slot of the node's neighborhood in the
    reserved list (where that id was first recorded, appended when unseen),
    or [palette[0]] with a "Ran out of colors" diagnostic when that slot is
    past the palette.  Under [LABEL] it is the node's non-empty entry in
    [nodeColors]; with no entry (or an empty one), the gray default, unless
    the label names a member of [Object.prototype], which is then returned.
    Any other scheme raises, as does [addEventListener] for an event type that
    is not one of the registered ones. *)
Theorem getColorForNode_schemes : forall (n : GraphObject) (s : GraphStore),
  (colorScheme (config s) = NEIGHBORHOOD ->
     let nb := go_neighborhood n in
     let reserved' := reserve_neighborhood nb (reservedColorsByNeighborhood s) in
     let palette := colorPalette (config s) in
     exists s' slot,
       getColorForNode (Some n) s =
         Ok (s', member_of_option (if decide (slot < length palette) then palette !! slot
                                   else palette !! 0)) /\
       reservedColorsByNeighborhood s' = reserved' /\
       reserved' !! slot = Some nb /\ (forall j, j < slot -> reserved' !! j <> Some nb) /\
       (length palette <= slot -> "Ran out of colors for neighborhood" ∈ diagnostics s')) /\
  (colorScheme (config s) = LABEL -> go_kind n = KNode ->
     nodeColors (config s) !! display_key n = None ->
     ~ In (display_key n) object_prototype_keys ->
     getColorForNode (Some n) s = Ok (s, Own defaultColor)) /\
  (colorScheme (config s) = LABEL -> go_kind n = KNode ->
     nodeColors (config s) !! display_key n = None ->
     In (display_key n) object_prototype_keys ->
     getColorForNode (Some n) s = Ok (s, Inherited (display_key n))) /\
  (colorScheme (config s) = LABEL -> go_kind n = KNode ->
     nodeColors (config s) !! display_key n = Some "" ->
     getColorForNode (Some n) s = Ok (s, Own defaultColor)) /\
  (colorScheme (config s) = LABEL -> go_kind n = KNode ->
     forall col, nodeColors (config s) !! display_key n = Some col -> col <> "" ->
     getColorForNode (Some n) s = Ok (s, Own col)) /\
  (forall tag, colorScheme (config s) = OtherColorScheme tag ->
     exists e, getColorForNode (Some n) s = Throw e) /\
  (forall (t : EventType) (callback : nat), (forall k, t <> Registered k) ->
     exists e, addEventListener t callback s = Throw e).
Proof.
  intros n s. split; [|split; [|split; [|split; [|split; [|split]]]]].
  - intros Hcs nb reserved' palette. unfold getColorForNode. rewrite Hcs.
    destruct (getColorForNodeByNeighborhood_spec n s)
      as (s' & slot & H & _ & _ & _ & Hr & Hat & Hfirst & Hout).
    exists s', slot. rewrite H. auto.
  - intros Hcs Hk Hnone Hnot. unfold getColorForNode, getColorForNodeByLabel, js_get.
    rewrite Hcs, Hk, Hnone. by rewrite (proj2 (inherited_key_false _) Hnot).
  - intros Hcs Hk Hnone Hin. unfold getColorForNode, getColorForNodeByLabel, js_get.
    rewrite Hcs, Hk, Hnone.
    destruct (inherited_key (display_key n)) eqn:Hi; [reflexivity|].
    apply inherited_key_false in Hi. contradiction.
  - intros Hcs Hk Hempty. unfold getColorForNode, getColorForNodeByLabel, js_get.
    by rewrite Hcs, Hk, Hempty.
  - intros Hcs Hk col Hcol Hne. unfold getColorForNode, getColorForNodeByLabel, js_get.
    rewrite Hcs, Hk, Hcol. by rewrite (proj2 (String.eqb_neq _ _) Hne).
  - intros tag Hcs. unfold getColorForNode. rewrite Hcs. eauto.
  - intros t cb Ht. destruct t as [k|m|key]; [by destruct (Ht k)| |]; unfold addEventListener.
    + eauto.
    + destruct (existsb (String.eqb key) object_prototype_keys); eauto.
Qed.
